(** * The booking form of the yoga-events front end

    A shallow embedding of [src/components/BookingForm.tsx]: the zod schema
    that guards the form, the three handlers of the component ([onSubmit],
    [completeBooking], [handlePaymentSuccess]), its render function, and the
    record store, e-mail service and payment gateway the handlers talk to.
    The admin session service ([AuthService], over [localStorage]) is
    embedded beside it.

    Conventions.
    - A JavaScript string is a [string], one character for each code unit;
      [s.length] is [String.length].
    - [Date.now()] is a reading of the clock in milliseconds, an [N];
      [Date.now().toString()] is its decimal rendering, stdpp's [pretty].
    - Amounts of money and head counts are [N].
    - A handler is a computation in the monad [M]: it threads the whole
      mutable world (store, component state, outbox, console) and may throw.
      What a handler wrote before it threw stays written.
    - A handler writes to the store only before its first [await], so the
      writes of one call are not interleaved with those of another: calls of
      handlers are the steps of the application. *)

From Stdlib Require Import NArith Lia Ascii String.
From stdpp Require Import base strings list pretty gmap.

Local Open Scope N_scope.

(** ** Records of [@/types] *)

Inductive PaymentStatus := pending | completed.

Global Instance PaymentStatus_eq_dec : EqDecision PaymentStatus.
Proof. solve_decision. Defined.

Module User.
Record t := mk {
  id : string;
  name : string;
  email : string;
  phone : string;
  studentId : string;
  registrationDate : N  (* the instant whose ISO rendering is stored *)
}.
End User.

(** Modelled from the spec: the [Event] type of [@/types] is not among the
    sources.  The fields are those of the spec's data model: "identifier,
    title, date, time, price (zero means free), capacity (maxParticipants),
    currentParticipants counter".  A price is an amount of money and the two
    counters are head counts, hence [N]. *)
Module Event.
Record t := mk {
  id : string;
  title : string;
  date : string;
  time : string;
  price : N;
  maxParticipants : N;
  currentParticipants : N
}.

(** [Partial<Event>]: every field optional. *)
Record partial := mkPartial {
  id' : option string;
  title' : option string;
  date' : option string;
  time' : option string;
  price' : option N;
  maxParticipants' : option N;
  currentParticipants' : option N
}.

(** [{ ...e, ...p }] *)
Definition merge (e : t) (p : partial) : t :=
  mk (default (id e) (id' p))
     (default (title e) (title' p))
     (default (date e) (date' p))
     (default (time e) (time' p))
     (default (price e) (price' p))
     (default (maxParticipants e) (maxParticipants' p))
     (default (currentParticipants e) (currentParticipants' p)).
End Event.

Module Booking.
Record t := mk {
  id : string;
  userId : string;
  eventId : string;
  bookingDate : N;  (* the instant whose ISO rendering is stored *)
  paymentStatus : PaymentStatus;
  amount : N;
  paymentId : option string
}.

(** [Partial<Booking>]: every field optional. *)
Record partial := mkPartial {
  id' : option string;
  userId' : option string;
  eventId' : option string;
  bookingDate' : option N;
  paymentStatus' : option PaymentStatus;
  amount' : option N;
  paymentId' : option string
}.

(** [{ ...b, ...p }] *)
Definition merge (b : t) (p : partial) : t :=
  mk (default (id b) (id' p))
     (default (userId b) (userId' p))
     (default (eventId b) (eventId' p))
     (default (bookingDate b) (bookingDate' p))
     (default (paymentStatus b) (paymentStatus' p))
     (default (amount b) (amount' p))
     (match paymentId' p with Some x => Some x | None => paymentId b end).
End Booking.

(** ** Exceptions

    The error taxonomy of the spec, together with the two failures of the
    collaborators a handler can meet: a rejected e-mail and a failed write. *)
Inductive Exn :=
  | NotFound
  | InvalidState
  | CapacityExceeded
  | NotificationFailed
  | StorageFailed.

Global Instance Exn_eq_dec : EqDecision Exn.
Proof. solve_decision. Defined.

(** ** The record store, [@/lib/database] *)

Record Database := mkDatabase {
  users : list User.t;
  events : list Event.t;
  bookings : list Booking.t
}.

(** The interface the component uses of the imported [db] object.  A write
    that throws leaves the store as it was. *)
Record DbApi := mkDbApi {
  getUserByEmail : string -> Database -> option User.t;
  addUser : User.t -> Database -> Exn + Database;
  addBooking : Booking.t -> Database -> Exn + Database;
  updateBooking : string -> Booking.partial -> Database -> Exn + Database;
  updateEvent : string -> Event.partial -> Database -> Exn + Database
}.

(** Replace the first record the predicate selects; [None] when it selects
    no record. *)
Fixpoint update_first {A} (sel : A -> bool) (f : A -> A) (l : list A)
  : option (list A) :=
  match l with
  | [] => None
  | x :: l' =>
      if sel x then Some (f x :: l')
      else match update_first sel f l' with
           | Some r => Some (x :: r)
           | None => None
           end
  end.

Definition has_id {A} (id_of : A -> string) (i : string) (x : A) : bool :=
  bool_decide (id_of x = i).

Definition getEvent (i : string) (d : Database) : option Event.t :=
  List.find (has_id Event.id i) (events d).

Definition getBooking (i : string) (d : Database) : option Booking.t :=
  List.find (has_id Booking.id i) (bookings d).

(** Modelled from the spec: the module [@/lib/database] is not among the
    sources.  Section 4.1 of the spec gives its contract: [createUser]
    "appends" and "never fails for well-formed input"; [findUserByEmail] is
    an "exact-match lookup"; [updateBooking] and [updateEvent] do a "partial
    update [that] merges only supplied fields; fails with NotFound if id
    unknown".  Records are kept in three lists, in order of creation; the
    record an identifier addresses is the first one that carries it. *)
Definition specDb : DbApi := {|
  getUserByEmail e d :=
    List.find (fun u => bool_decide (User.email u = e)) (users d);
  addUser u d :=
    inr (mkDatabase (users d ++ [u]) (events d) (bookings d));
  addBooking b d :=
    inr (mkDatabase (users d) (events d) (bookings d ++ [b]));
  updateBooking i p d :=
    match update_first (has_id Booking.id i) (fun b => Booking.merge b p)
                       (bookings d) with
    | Some bs => inr (mkDatabase (users d) (events d) bs)
    | None => inl NotFound
    end;
  updateEvent i p d :=
    match update_first (has_id Event.id i) (fun e => Event.merge e p)
                       (events d) with
    | Some es => inr (mkDatabase (users d) es (bookings d))
    | None => inl NotFound
    end
|}.

(** The same store on a medium whose booking collection cannot be written:
    [addBooking] throws.  Used to observe what [onSubmit] leaves behind when
    it fails half way. *)
Definition bookingWriteFails (d : DbApi) : DbApi := {|
  getUserByEmail := getUserByEmail d;
  addUser := addUser d;
  addBooking _ _ := inl StorageFailed;
  updateBooking := updateBooking d;
  updateEvent := updateEvent d
|}.

(** ** The e-mail service, [@/lib/email] *)

Inductive Notification :=
  | BookingConfirmation (user : User.t) (event : Event.t) (bookingId : string)
  | PaymentConfirmation (user : User.t) (event : Event.t) (paymentId : string).

(** ** The form: schema, state, world *)

Record BookingFormData := mkData {
  name : string;
  email : string;
  phone : string;
  studentId : string
}.

Inductive Field := nameField | emailField | phoneField | studentIdField.

Global Instance Field_eq_dec : EqDecision Field.
Proof. solve_decision. Defined.

(** react-hook-form's [formState.errors]: the offending fields, each with
    the message of the check it failed, in the order of the schema. *)
Definition FieldErrors := list (Field * string).

Record FormState := mkForm {
  isSubmitting : bool;
  showPayment : bool;
  bookingData : option (User.t * Booking.t);
  success : bool;
  errors : FieldErrors
}.

Definition initialForm : FormState := mkForm false false None false [].

Record World := mkWorld {
  store : Database;
  form : FormState;
  outbox : list Notification;   (* e-mails the service accepted *)
  console : list Exn            (* what [console.error] was given *)
}.

(** ** The handler monad *)

Definition M (A : Type) : Type := World -> (Exn + A) * World.

Definition ret {A} (a : A) : M A := fun w => (inr a, w).

Definition bind {A B} (m : M A) (k : A -> M B) : M B :=
  fun w => match m w with
           | (inr a, w') => k a w'
           | (inl e, w') => (inl e, w')
           end.

(** [try { m } catch (error) { h error }] *)
Definition try_catch (m : M unit) (h : Exn -> M unit) : M unit :=
  fun w => match m w with
           | (inl e, w') => h e w'
           | r => r
           end.

(** [try { m } finally { f }]: [f] runs on both exits; an exception of [m]
    is rethrown after it. *)
Definition try_finally (m : M unit) (f : M unit) : M unit :=
  fun w => match m w with
           | (r, w') => match f w' with
                        | (inr _, w'') => (r, w'')
                        | (inl e, w'') => (inl e, w'')
                        end
           end.

Declare Scope handler_scope.
Delimit Scope handler_scope with handler.
Notation "x <- c ;; k" := (bind c (fun x => k))
  (at level 100, c at next level, k at level 200, right associativity)
  : handler_scope.
Notation "c ;;; k" := (bind c (fun _ => k))
  (at level 100, k at level 200, right associativity) : handler_scope.

Definition exec {A} (m : M A) (w : World) : World := snd (m w).
Definition outcome {A} (m : M A) (w : World) : Exn + A := fst (m w).

(** State setters of the component and the primitive effects. *)

Definition modify_form (f : FormState -> FormState) : M unit :=
  fun w => (inr tt, mkWorld (store w) (f (form w)) (outbox w) (console w)).

Definition setIsSubmitting (b : bool) : M unit :=
  modify_form (fun s =>
    mkForm b (showPayment s) (bookingData s) (success s) (errors s)).

Definition setShowPayment (b : bool) : M unit :=
  modify_form (fun s =>
    mkForm (isSubmitting s) b (bookingData s) (success s) (errors s)).

Definition setBookingData (x : option (User.t * Booking.t)) : M unit :=
  modify_form (fun s =>
    mkForm (isSubmitting s) (showPayment s) x (success s) (errors s)).

Definition setSuccess (b : bool) : M unit :=
  modify_form (fun s =>
    mkForm (isSubmitting s) (showPayment s) (bookingData s) b (errors s)).

Definition setErrors (es : FieldErrors) : M unit :=
  modify_form (fun s =>
    mkForm (isSubmitting s) (showPayment s) (bookingData s) (success s) es).

Definition getBookingData : M (option (User.t * Booking.t)) :=
  fun w => (inr (bookingData (form w)), w).

(** A read of the store. *)
Definition db_read {A} (q : Database -> A) : M A :=
  fun w => (inr (q (store w)), w).

(** A write to the store: the new store on success, the exception and the
    old store otherwise. *)
Definition db_write (op : Database -> Exn + Database) : M unit :=
  fun w => match op (store w) with
           | inr d' => (inr tt, mkWorld d' (form w) (outbox w) (console w))
           | inl e => (inl e, w)
           end.

Definition console_error (e : Exn) : M unit :=
  fun w => (inr tt, mkWorld (store w) (form w) (outbox w) (console w ++ [e])).

(** [await EmailService.send...(...)]: the promise resolves when the service
    delivers and rejects otherwise. *)
Definition send (delivers : Notification -> bool) (n : Notification) : M unit :=
  fun w => if delivers n
           then (inr tt, mkWorld (store w) (form w) (outbox w ++ [n]) (console w))
           else (inl NotificationFailed, w).

(** ** The schema *)

Section Schema.
(** zod's [.email()] check, a regular expression of the library. *)
Variable isEmail : string -> bool.

Definition check (ok : bool) (f : Field) (msg : string) : FieldErrors :=
  if ok then [] else [(f, msg)].

Definition bookingSchema (data : BookingFormData) : FieldErrors :=
  check (bool_decide (2 <= String.length (name data))%nat)
        nameField "Name must be at least 2 characters"
  ++ check (isEmail (email data))
        emailField "Invalid email address"
  ++ check (bool_decide (10 <= String.length (phone data))%nat)
        phoneField "Phone number must be at least 10 digits"
  ++ check (bool_decide (1 <= String.length (studentId data))%nat)
        studentIdField "Student ID is required".

(** react-hook-form's [handleSubmit(onValid)] with [zodResolver]: the
    resolver's errors become [formState.errors]; [onValid] is called only
    when there are none. *)
Definition handleSubmit (onValid : BookingFormData -> M unit)
    (data : BookingFormData) : M unit :=
  (setErrors (bookingSchema data) ;;;
   match bookingSchema data with
   | [] => onValid data
   | _ :: _ => ret tt
   end)%handler.
End Schema.

(** The four readings of the clock [onSubmit] takes, in program order. *)
Record Clock := mkClock {
  userIdNow : N;            (* [Date.now()] for [user.id] *)
  registrationNow : N;      (* [new Date()] for [user.registrationDate] *)
  bookingIdNow : N;         (* [Date.now()] for [booking.id] *)
  bookingNow : N            (* [new Date()] for [booking.bookingDate] *)
}.

(** The two object literals [onSubmit] builds. *)

Definition draftUser (clock : Clock) (data : BookingFormData) : User.t :=
  {| User.id := pretty (userIdNow clock);
     User.name := name data;
     User.email := email data;
     User.phone := phone data;
     User.studentId := studentId data;
     User.registrationDate := registrationNow clock |}.

Definition draftBooking (event : Event.t) (clock : Clock) (user : User.t)
  : Booking.t :=
  {| Booking.id := pretty (bookingIdNow clock);
     Booking.userId := User.id user;
     Booking.eventId := Event.id event;
     Booking.bookingDate := bookingNow clock;
     Booking.paymentStatus :=
       if bool_decide (0 < Event.price event) then pending else completed;
     Booking.amount := Event.price event;
     Booking.paymentId := None |}.

(** The partial records the handlers pass to the store. *)

Definition participantsUpdate (n : N) : Event.partial :=
  {| Event.id' := None; Event.title' := None; Event.date' := None;
     Event.time' := None; Event.price' := None;
     Event.maxParticipants' := None;
     Event.currentParticipants' := Some n |}.

Definition paymentUpdate (paymentId : string) : Booking.partial :=
  {| Booking.id' := None; Booking.userId' := None; Booking.eventId' := None;
     Booking.bookingDate' := None;
     Booking.paymentStatus' := Some completed;
     Booking.amount' := None;
     Booking.paymentId' := Some paymentId |}.

(** ** The component *)

Section BookingForm.
Variable db : DbApi.                           (* [import { db }] *)
Variable EmailService : Notification -> bool.  (* [import { EmailService }] *)
Variable event : Event.t.                      (* the [event] prop *)

Definition completeBooking (user : User.t) (booking : Booking.t) : M unit :=
  ((* Update event participant count *)
   db_write (updateEvent db (Event.id event)
     (participantsUpdate (Event.currentParticipants event + 1))) ;;;
   (* Send confirmation email *)
   send EmailService (BookingConfirmation user event (Booking.id booking)) ;;;
   setSuccess true
   (* [setTimeout(() => onSuccess(), 2000)]: the parent's callback, two
      seconds later; it touches neither the store nor this state. *)
  )%handler.

Definition onSubmit (clock : Clock) (data : BookingFormData) : M unit :=
  (setIsSubmitting true ;;;
   try_finally
     (try_catch
        ((* Create user *)
         let user := draftUser clock data in
         (* Create booking *)
         let booking := draftBooking event clock user in
         (* Check if user already exists *)
         existingUser <- db_read (getUserByEmail db (email data)) ;;
         match existingUser with
         | None => db_write (addUser db user)
         | Some _ => ret tt
         end ;;;
         db_write (addBooking db booking) ;;;
         setBookingData (Some (user, booking)) ;;;
         if bool_decide (0 < Event.price event)
         then setShowPayment true
         else (* Free event - complete booking immediately *)
              completeBooking user booking)
        (fun error => console_error error))
     (setIsSubmitting false))%handler.

Definition handlePaymentSuccess (paymentId : string) : M unit :=
  (bd <- getBookingData ;;
   match bd with
   | Some (user, booking) =>
       (* Update booking with payment info *)
       db_write (updateBooking db (Booking.id booking)
         (paymentUpdate paymentId)) ;;;
       completeBooking user booking ;;;
       send EmailService (PaymentConfirmation user event paymentId)
   | None => ret tt
   end)%handler.

(** [onCancel={() => setShowPayment(false)}] *)
Definition onCancel : M unit := setShowPayment false.

(** What the component renders. *)
Inductive View :=
  | ConfirmedCard
  | PaymentGatewayView (amount : N)
  | FormView.

Definition render (s : FormState) : View :=
  if success s then ConfirmedCard
  else if showPayment s && bool_decide (is_Some (bookingData s))
       then PaymentGatewayView (Event.price event)
       else FormView.
End BookingForm.

(** ** The application around the form

    Several forms may be mounted over one store, each with the [event] it
    was given when it was mounted and its own state. *)

Record Instance := mkInstance {
  props_event : Event.t;
  state : FormState
}.

Record App := mkApp {
  app_store : Database;
  app_forms : list Instance;
  app_outbox : list Notification;
  app_console : list Exn
}.

(** Modelled from the spec: the component [./PaymentGateway] is not among
    the sources.  Section 4.4 of the spec gives the outcomes of a payment,
    "one of {Success(paymentId), Cancelled, Failed(reason)}", and says the
    workflow "treats Cancelled and Failed identically".  The gateway has two
    callbacks, [onSuccess] and [onCancel]. *)
Inductive PaymentOutcome :=
  | Success (paymentId : string)
  | Cancelled
  | Failed (reason : string).

Inductive Action :=
  | Mount (event : Event.t)
  | Submit (i : nat) (clock : Clock) (data : BookingFormData)
  | Payment (i : nat) (o : PaymentOutcome).

Section Application.
Variable db : DbApi.
Variable EmailService : Notification -> bool.
Variable isEmail : string -> bool.

(** Run a handler of the [i]-th form.  An exception that leaves the
    handler is an unhandled rejection: nothing is undone. *)
Definition run_handler (i : nat) (h : Event.t -> M unit) (a : App)
  : option App :=
  match app_forms a !! i with
  | None => None
  | Some inst =>
      let w := exec (h (props_event inst))
                    (mkWorld (app_store a) (state inst)
                             (app_outbox a) (app_console a)) in
      Some (mkApp (store w)
                  (<[i := mkInstance (props_event inst) (form w)]>
                     (app_forms a))
                  (outbox w) (console w))
  end.

Definition view_of (i : nat) (a : App) : option View :=
  match app_forms a !! i with
  | None => None
  | Some inst => Some (render (props_event inst) (state inst))
  end.

(** An action is possible only on the view that offers it: the form can
    be submitted while it is shown, the gateway calls back while it is
    shown. *)
Definition dispatch (act : Action) (a : App) : option App :=
  match act with
  | Mount ev =>
      Some (mkApp (app_store a)
                  (app_forms a ++ [mkInstance ev initialForm])
                  (app_outbox a) (app_console a))
  | Submit i clock data =>
      match view_of i a with
      | Some FormView =>
          run_handler i
            (fun ev => handleSubmit isEmail
                         (onSubmit db EmailService ev clock) data) a
      | _ => None
      end
  | Payment i o =>
      match view_of i a with
      | Some (PaymentGatewayView _) =>
          match o with
          | Success paymentId =>
              run_handler i
                (fun ev => handlePaymentSuccess db EmailService ev
                             paymentId) a
          | Cancelled | Failed _ => run_handler i (fun _ => onCancel) a
          end
      | _ => None
      end
  end.

Fixpoint run (acts : list Action) (a : App) : option App :=
  match acts with
  | [] => Some a
  | act :: rest =>
      match dispatch act a with
      | Some a' => run rest a'
      | None => None
      end
  end.
End Application.

(** The submit button of the form: whether it is disabled and what it
    says. *)
Definition submitButton (event : Event.t) (s : FormState) : bool * string :=
  (isSubmitting s,
   if isSubmitting s then "Processing..."%string
   else if bool_decide (0 < Event.price event)
        then "Proceed to Payment"%string
        else "Book Now (Free)"%string).

(** ** The admin session service

    [localStorage] is a finite map from keys to values: [setItem] inserts,
    [removeItem] deletes, [getItem] looks up and gives [null] for a key that
    is absent.  A write is taken to succeed (no quota). *)

Module AuthService.
(* Fixed admin credentials - no changes allowed *)
Definition ADMIN_EMAIL : string := "yogaiipsadmin@gmail.com".
Definition ADMIN_PASSWORD : string := "yogakarlo".

Definition AUTH_KEY : string := "yoga_admin_auth".

Definition login (email password : string) (localStorage : gmap string string)
  : bool * gmap string string :=
  if bool_decide (email = ADMIN_EMAIL)
     && bool_decide (password = ADMIN_PASSWORD)
  then (true, <[AUTH_KEY := "authenticated"%string]> localStorage)
  else (false, localStorage).

Definition logout (localStorage : gmap string string) : gmap string string :=
  delete AUTH_KEY localStorage.

Definition isAuthenticated (localStorage : gmap string string) : bool :=
  bool_decide (localStorage !! AUTH_KEY = Some "authenticated"%string).

Definition getAdminEmail : string := ADMIN_EMAIL.

(** A call of the service that writes. *)
Inductive Call :=
  | Login (email password : string)
  | Logout.

Definition call (c : Call) (localStorage : gmap string string)
  : gmap string string :=
  match c with
  | Login email password => (login email password localStorage).2
  | Logout => logout localStorage
  end.

(** Calls in sequence, the first of the list first. *)
Definition calls (cs : list Call) (localStorage : gmap string string)
  : gmap string string :=
  foldl (fun ls c => call c ls) localStorage cs.
End AuthService.

(** ** Sample data *)

Definition e1 : Event.t :=
  Event.mk "e1" "Morning yoga" "2025-06-21" "06:00" 500 2 1.

Definition e1_full : Event.t :=
  Event.mk "e1" "Morning yoga" "2025-06-21" "06:00" 500 2 2.

Definition e0 : Event.t :=
  Event.mk "e0" "Open session" "2025-06-22" "07:00" 0 10 3.

Definition ann : BookingFormData :=
  mkData "Ann Lee" "a@x.com" "1234567890" "S1".

Definition ann_again : BookingFormData :=
  mkData "Ann L." "a@x.com" "0987654321" "S1".

Definition bob : BookingFormData :=
  mkData "Bob Ray" "b@x.com" "5555555555" "S2".

Definition at_ (t : N) : Clock := mkClock t t t t.

Definition always (_ : Notification) : bool := true.

Definition never (_ : Notification) : bool := false.

(** A stand-in for the library's e-mail check in examples: some text, an
    [@], some text. *)
Fixpoint has_at (seen : bool) (s : string) : bool :=
  match s with
  | EmptyString => false
  | String c rest =>
      if bool_decide (c = "@"%char)
      then seen && negb (bool_decide (rest = EmptyString))
      else has_at true rest
  end.

Definition isEmail_sample (s : string) : bool := has_at false s.

Definition store1 : Database := mkDatabase [] [e1; e0] [].

(** ** Vocabulary of the properties *)

(** The events after [completeBooking]: the first event that carries the
    identifier of the form's event has its counter replaced; without such an
    event nothing changes (and [NotFound] is thrown). *)
Definition bump (ev : Event.t) (es : list Event.t) : list Event.t :=
  default es
    (update_first (has_id Event.id (Event.id ev))
       (fun e => Event.merge e
          (participantsUpdate (Event.currentParticipants ev + 1)))
       es).

Definition finalized (ev : Event.t) (d : Database) : Database :=
  mkDatabase (users d) (bump ev (events d)) (bookings d).

(** The store after [onSubmit]: the candidate user is appended unless the
    e-mail is taken, the booking is appended, and a free booking is finalized
    at once. *)
Definition submitted (ev : Event.t) (clock : Clock) (data : BookingFormData)
    (d : Database) : Database :=
  let user := draftUser clock data in
  let booking := draftBooking ev clock user in
  let us := match getUserByEmail specDb (email data) d with
            | None => users d ++ [user]
            | Some _ => users d
            end in
  let d2 := mkDatabase us (events d) (bookings d ++ [booking]) in
  if bool_decide (0 < Event.price ev) then d2 else finalized ev d2.

(** The bookings after [handlePaymentSuccess]: the first booking that
    carries the identifier is completed with the payment identifier;
    [None] when no booking carries it. *)
Definition pay (i paymentId : string) (bs : list Booking.t)
  : option (list Booking.t) :=
  update_first (has_id Booking.id i)
    (fun b => Booking.merge b (paymentUpdate paymentId)) bs.

Definition confirmed (ev : Event.t) (i paymentId : string) (d : Database)
  : Database :=
  match pay i paymentId (bookings d) with
  | Some bs => mkDatabase (users d) (bump ev (events d)) bs
  | None => d
  end.

(** What the claim calls an offending field, in its words: a name of fewer
    than 2 characters, an e-mail that is not syntactically valid, a phone of
    fewer than 10 characters, an empty student id. *)
Definition spec_offending (isEmail : string -> bool) (data : BookingFormData)
    (f : Field) : Prop :=
  match f with
  | nameField => (String.length (name data) < 2)%nat
  | emailField => isEmail (email data) = false
  | phoneField => (String.length (phone data) < 10)%nat
  | studentIdField => studentId data = ""%string
  end.




(** Two records of one event that differ at most in the count. *)
Definition same_but_count (e e' : Event.t) : Prop :=
  Event.id e' = Event.id e /\
  Event.title e' = Event.title e /\
  Event.date e' = Event.date e /\
  Event.time e' = Event.time e /\
  Event.price e' = Event.price e /\
  Event.maxParticipants e' = Event.maxParticipants e.

(** Two records of one booking, the second later: what was written at
    creation is the same, and a completed booking is still completed. *)
Definition evolves (b b' : Booking.t) : Prop :=
  Booking.id b' = Booking.id b /\
  Booking.userId b' = Booking.userId b /\
  Booking.eventId b' = Booking.eventId b /\
  Booking.bookingDate b' = Booking.bookingDate b /\
  Booking.amount b' = Booking.amount b /\
  (Booking.paymentStatus b = completed ->
   Booking.paymentStatus b' = completed).

(** The input passes the four checks of the schema. *)
Definition valid (isEmail : string -> bool) (data : BookingFormData) : Prop :=
  (2 <= String.length (name data))%nat /\
  isEmail (email data) = true /\
  (10 <= String.length (phone data))%nat /\
  (1 <= String.length (studentId data))%nat.

(** Unfold a handler down to the function on worlds it denotes. *)
Ltac denote :=
  unfold handleSubmit, onSubmit, handlePaymentSuccess, onCancel;
  unfold completeBooking;
  unfold exec, outcome, try_finally, try_catch;
  unfold bind, ret, db_read, db_write, send, console_error,
    getBookingData, setIsSubmitting, setShowPayment, setBookingData,
    setSuccess, setErrors;
  unfold modify_form;
  simpl.

(** * Properties *)

(** ** Replacing a record in place *)

Section UpdateFirst.
Context {A : Type} (sel : A -> bool) (f : A -> A).

Lemma update_first_none (l : list A) :
  update_first sel f l = None <-> List.find sel l = None.
Proof.
  induction l as [|x l IH]; simpl; [done|].
  destruct (sel x); [split; discriminate|].
  destruct (update_first sel f l); split; try discriminate; try done.
  - intros H. apply IH in H. discriminate.
  - intros _. by apply IH.
Qed.

Lemma update_first_find (l l' : list A) :
  (forall x, sel x = true -> sel (f x) = true) ->
  update_first sel f l = Some l' ->
  exists x, List.find sel l = Some x /\ List.find sel l' = Some (f x).
Proof.
  intros Hsel. revert l'.
  induction l as [|x l IH]; simpl; intros l' H; [discriminate|].
  destruct (sel x) eqn:Hx.
  - inversion H; subst. exists x. simpl. by rewrite (Hsel x Hx).
  - destruct (update_first sel f l) as [r|]; [|discriminate].
    inversion H; subst. destruct (IH r eq_refl) as (y & H1 & H2).
    exists y. simpl. by rewrite Hx.
Qed.

Lemma update_first_idem (l l' : list A) :
  (forall x, sel x = true -> sel (f x) = true) ->
  (forall x, f (f x) = f x) ->
  update_first sel f l = Some l' ->
  update_first sel f l' = Some l'.
Proof.
  intros Hsel Hidem. revert l'.
  induction l as [|x l IH]; simpl; intros l' H; [discriminate|].
  destruct (sel x) eqn:Hx.
  - inversion H; subst. simpl. by rewrite (Hsel x Hx), Hidem.
  - destruct (update_first sel f l) as [r|]; [|discriminate].
    inversion H; subst. simpl. by rewrite Hx, (IH r eq_refl).
Qed.


Lemma find_app_none (l : list A) (x : A) :
  List.find sel l = None -> List.find sel (l ++ [x]) = List.find sel [x].
Proof.
  induction l as [|y l IH]; simpl; [done|].
  destruct (sel y); [discriminate|]. exact IH.
Qed.

Lemma update_first_app_none (l : list A) (x : A) :
  List.find sel l = None ->
  update_first sel f (l ++ [x])
  = if sel x then Some (l ++ [f x]) else None.
Proof.
  induction l as [|y l IH]; simpl; [done|].
  destruct (sel y); [discriminate|].
  intros H. rewrite (IH H). by destruct (sel x).
Qed.
End UpdateFirst.

(** ** What the handlers do to the spec's store *)

Lemma completeBooking_store mail ev u b w :
  store (exec (completeBooking specDb mail ev u b) w) = finalized ev (store w).
Proof.
  unfold finalized, bump. denote.
  destruct (update_first _ _ (events (store w))); simpl.
  - by destruct (mail _).
  - by destruct (store w).
Qed.

Lemma completeBooking_outcome mail ev u b w :
  outcome (completeBooking specDb mail ev u b) w = inr tt
  \/ outcome (completeBooking specDb mail ev u b) w = inl NotFound
  \/ outcome (completeBooking specDb mail ev u b) w = inl NotificationFailed.
Proof.
  denote.
  destruct (update_first _ _ (events (store w))); simpl; [|auto].
  destruct (mail _); simpl; auto.
Qed.

Lemma has_id_merge_participants i n (e : Event.t) :
  has_id Event.id i e = true ->
  has_id Event.id i (Event.merge e (participantsUpdate n)) = true.
Proof. done. Qed.

Lemma bump_idem ev es : bump ev (bump ev es) = bump ev es.
Proof.
  unfold bump.
  destruct (update_first _ _ es) as [es'|] eqn:E; simpl.
  - erewrite update_first_idem; eauto using has_id_merge_participants.
  - by rewrite E.
Qed.

Lemma finalized_idem ev d : finalized ev (finalized ev d) = finalized ev d.
Proof. unfold finalized. simpl. by rewrite bump_idem. Qed.

Lemma finalized_count ev d stored :
  getEvent (Event.id ev) d = Some stored ->
  getEvent (Event.id ev) (finalized ev d)
  = Some (Event.merge stored
            (participantsUpdate (Event.currentParticipants ev + 1))).
Proof.
  unfold getEvent, finalized, bump. simpl. intros H.
  destruct (update_first _ _ (events d)) as [es|] eqn:E; simpl.
  - apply update_first_find in E as (x & H1 & H2);
      [|by apply has_id_merge_participants].
    rewrite H in H1. by inversion H1; subst.
  - apply update_first_none in E. congruence.
Qed.

Lemma onSubmit_store mail ev clock data w :
  store (exec (onSubmit specDb mail ev clock data) w)
  = submitted ev clock data (store w).
Proof.
  unfold submitted, finalized, bump. denote.
  destruct (List.find _ (users (store w))); simpl;
    destruct (bool_decide (0 < Event.price ev)); simpl; try done;
    destruct (update_first _ _ (events (store w))); simpl; try done;
    by destruct (mail _).
Qed.

Lemma onSubmit_outcome db mail ev clock data w :
  outcome (onSubmit db mail ev clock data) w = inr tt.
Proof.
  denote.
  repeat (case_match; simplify_eq/=; try done).
Qed.

Lemma onSubmit_bookingData mail ev clock data w :
  bookingData (form (exec (onSubmit specDb mail ev clock data) w))
  = Some (draftUser clock data, draftBooking ev clock (draftUser clock data)).
Proof.
  denote.
  destruct (List.find _ (users (store w))); simpl;
    destruct (bool_decide (0 < Event.price ev)); simpl; try done;
    destruct (update_first _ _ (events (store w))); simpl; try done;
    by destruct (mail _).
Qed.

Lemma submitted_bookings ev clock data d :
  bookings (submitted ev clock data d)
  = bookings d ++ [draftBooking ev clock (draftUser clock data)].
Proof.
  unfold submitted. by destruct (bool_decide _).
Qed.

Lemma submitted_users ev clock data d :
  users (submitted ev clock data d)
  = match getUserByEmail specDb (email data) d with
    | None => users d ++ [draftUser clock data]
    | Some _ => users d
    end.
Proof.
  unfold submitted. by destruct (bool_decide _).
Qed.

Lemma submitted_paid ev clock data d :
  0 < Event.price ev -> events (submitted ev clock data d) = events d.
Proof. intros H. unfold submitted. by rewrite bool_decide_eq_true_2. Qed.

(** ** The created booking *)

(** C6. For every submission, the booking [onSubmit] creates (the record it
    appends to the store and keeps in [bookingData]) is [pending] exactly
    when the price of the event is positive, [completed] exactly when the
    price is zero, and its [amount] is the price. *)
Theorem C6_status_follows_price mail ev clock data w :
  let w' := exec (onSubmit specDb mail ev clock data) w in
  exists u b,
    bookings (store w') = bookings (store w) ++ [b] /\
    bookingData (form w') = Some (u, b) /\
    (Booking.paymentStatus b = pending <-> 0 < Event.price ev) /\
    (Booking.paymentStatus b = completed <-> Event.price ev = 0) /\
    Booking.amount b = Event.price ev.
Proof.
  intros w'. subst w'.
  exists (draftUser clock data), (draftBooking ev clock (draftUser clock data)).
  rewrite onSubmit_store, submitted_bookings, onSubmit_bookingData.
  repeat split; simpl; try done.
  - case_bool_decide; [done|discriminate].
  - intros H. by rewrite bool_decide_eq_true_2.
  - case_bool_decide; [discriminate|lia].
  - intros H0. rewrite bool_decide_eq_false_2; [done|lia].
Qed.

(** ** Finalization *)

(** C7. [completeBooking] enforces no ceiling: whatever the capacity of the
    event and whatever its count, full or not, the stored count becomes the
    count of the form's event plus one, and [CapacityExceeded] is never
    thrown. *)
Theorem C7_no_capacity_ceiling mail ev u b w stored :
  getEvent (Event.id ev) (store w) = Some stored ->
  let w' := exec (completeBooking specDb mail ev u b) w in
  Event.currentParticipants <$> getEvent (Event.id ev) (store w')
  = Some (Event.currentParticipants ev + 1)
  /\ Event.maxParticipants <$> getEvent (Event.id ev) (store w')
     = Some (Event.maxParticipants stored)
  /\ outcome (completeBooking specDb mail ev u b) w <> inl CapacityExceeded.
Proof.
  intros H w'. subst w'.
  rewrite completeBooking_store, (finalized_count _ _ _ H). simpl.
  repeat split.
  destruct (completeBooking_outcome mail ev u b w) as [E|[E|E]];
    rewrite E; discriminate.
Qed.

Lemma C7_no_capacity_ceiling_witness :
  let w := mkWorld (mkDatabase [] [e1_full] []) initialForm [] [] in
  (Event.maxParticipants e1_full <= Event.currentParticipants e1_full) /\
  Event.currentParticipants
    <$> getEvent "e1"
          (store (exec (completeBooking specDb always e1_full
                       (draftUser (at_ 1000) ann)
                       (draftBooking e1_full (at_ 1000)
                          (draftUser (at_ 1000) ann))) w))
  = Some 3.
Proof.
  split; [vm_compute; discriminate|].
  apply (C7_no_capacity_ceiling always e1_full _ _ _ e1_full).
  reflexivity.
Defined.

(** C10. The count [completeBooking] writes comes from the event the form
    holds, not from the store: when the stored count differs from the form's,
    the stored record gets the form's count plus one, which is not the stored
    count plus one, and the count written is the same whatever the store
    held. *)
Theorem C10_count_from_snapshot mail ev u b w stored :
  getEvent (Event.id ev) (store w) = Some stored ->
  Event.currentParticipants stored <> Event.currentParticipants ev ->
  let after w := store (exec (completeBooking specDb mail ev u b) w) in
  getEvent (Event.id ev) (after w)
  = Some (Event.merge stored
            (participantsUpdate (Event.currentParticipants ev + 1)))
  /\ Event.currentParticipants <$> getEvent (Event.id ev) (after w)
     <> Some (Event.currentParticipants stored + 1)
  /\ forall w2 stored2,
       getEvent (Event.id ev) (store w2) = Some stored2 ->
       Event.currentParticipants <$> getEvent (Event.id ev) (after w2)
       = Event.currentParticipants <$> getEvent (Event.id ev) (after w).
Proof.
  intros H Hne after. subst after. simpl.
  rewrite completeBooking_store, (finalized_count _ _ _ H). simpl.
  split; [done|]. split.
  - intros [= E]. apply Hne. lia.
  - intros w2 stored2 H2.
    by rewrite completeBooking_store, (finalized_count _ _ _ H2).
Qed.

Lemma C10_count_from_snapshot_witness :
  let w := mkWorld (mkDatabase [] [e1_full] []) initialForm [] [] in
  getEvent "e1"
    (store (exec (completeBooking specDb always e1
                 (draftUser (at_ 1000) ann)
                 (draftBooking e1 (at_ 1000) (draftUser (at_ 1000) ann))) w))
  = Some e1_full.
Proof.
  refine (proj1 (C10_count_from_snapshot always e1 _ _
                   (mkWorld (mkDatabase [] [e1_full] []) initialForm [] [])
                   e1_full _ _)).
  - reflexivity.
  - vm_compute. discriminate.
Defined.

(** C4. Finalizing twice does not count twice: when a form calls
    [completeBooking] a second time for the same booking, the store, and with
    it the count of the event, is what the first call left. *)
Theorem C4_finalize_twice mail mail' ev u b w :
  let w1 := exec (completeBooking specDb mail ev u b) w in
  let w2 := exec (completeBooking specDb mail' ev u b) w1 in
  store w2 = store w1
  /\ Event.currentParticipants <$> getEvent (Event.id ev) (store w2)
     = Event.currentParticipants <$> getEvent (Event.id ev) (store w1).
Proof.
  intros w1 w2. subst w1 w2.
  rewrite !completeBooking_store, finalized_idem. done.
Qed.

(** ** Validation *)

Lemma elem_of_check ok f msg (g : Field) :
  g ∈ (check ok f msg).*1 <-> ok = false /\ g = f.
Proof.
  unfold check. destruct ok; simpl.
  - rewrite elem_of_nil. intuition discriminate.
  - rewrite list_elem_of_singleton. intuition.
Qed.

Lemma length_lt_1 (s : string) : (String.length s < 1)%nat <-> s = ""%string.
Proof. destruct s; simpl; split; (done || lia). Qed.

Lemma bookingSchema_names isEmail data f :
  f ∈ (bookingSchema isEmail data).*1 <-> spec_offending isEmail data f.
Proof.
  unfold bookingSchema. rewrite !fmap_app, !elem_of_app, !elem_of_check.
  rewrite !bool_decide_eq_false, <- !Nat.lt_nge, length_lt_1.
  destruct f; simpl; intuition discriminate.
Qed.

Lemma handleSubmit_rejects isEmail (onValid : BookingFormData -> M unit)
    data w :
  bookingSchema isEmail data <> [] ->
  exec (handleSubmit isEmail onValid data) w
  = mkWorld (store w)
      (mkForm (isSubmitting (form w)) (showPayment (form w))
              (bookingData (form w)) (success (form w))
              (bookingSchema isEmail data))
      (outbox w) (console w).
Proof.
  intros H. denote. by destruct (bookingSchema isEmail data).
Qed.

(** C8. For every form input with an offending field, submitting is
    rejected: [onSubmit] is not run, the errors of the form name exactly the
    offending fields, and the store is as before, so that neither a user nor
    a booking is created. *)
Theorem C8_invalid_input_rejected isEmail db mail ev clock data w :
  (exists f, spec_offending isEmail data f) ->
  let w' :=
    exec (handleSubmit isEmail (onSubmit db mail ev clock) data) w in
  (forall f, f ∈ (errors (form w')).*1 <-> spec_offending isEmail data f)
  /\ errors (form w') <> []
  /\ store w' = store w
  /\ users (store w') = users (store w)
  /\ bookings (store w') = bookings (store w)
  /\ bookingData (form w') = bookingData (form w).
Proof.
  intros [f Hf] w'. subst w'.
  assert (bookingSchema isEmail data <> []) as Hne.
  { apply bookingSchema_names in Hf. intros E. rewrite E in Hf.
    by apply elem_of_nil in Hf. }
  rewrite (handleSubmit_rejects _ _ _ _ Hne). simpl.
  repeat split; try done; apply bookingSchema_names.
Qed.

Lemma C8_invalid_input_rejected_witness :
  let bad := mkData "Ann Lee" "not-an-email" "1234567890" "S1" in
  let w := mkWorld store1 initialForm [] [] in
  let w' := exec (handleSubmit isEmail_sample
                    (onSubmit specDb always e1 (at_ 1000)) bad) w in
  errors (form w') <> [] /\ store w' = store w.
Proof.
  pose proof (C8_invalid_input_rejected isEmail_sample specDb always e1
                (at_ 1000)
                (mkData "Ann Lee" "not-an-email" "1234567890" "S1")
                (mkWorld store1 initialForm [] [])) as H.
  simpl in *. destruct H as (_ & Hne & Hdb & _).
  - exists emailField. reflexivity.
  - split; [exact Hne | exact Hdb].
Defined.

(** ** One user per e-mail *)

Lemma find_none_filter {A} (P : A -> Prop) `{forall x, Decision (P x)}
    (l : list A) :
  List.find (fun x => bool_decide (P x)) l = None -> filter P l = [].
Proof.
  induction l as [|x l IH]; simpl; [done|].
  case_bool_decide; [discriminate|].
  intros Hl. rewrite filter_cons_False by done. auto.
Qed.

(** C1. Two submissions with the same e-mail, the e-mail being new to the
    store and the two clock readings for [user.id] being different: the
    store ends with one user of that e-mail, the user of the first
    submission; the first booking carries its identifier, but the second
    booking carries the identifier of the second candidate, which was never
    stored. *)
Theorem C1_second_booking_keeps_candidate_id
    mail ev1 ev2 c1 c2 d1 d2 w w1' :
  email d1 = email d2 ->
  getUserByEmail specDb (email d1) (store w) = None ->
  userIdNow c1 <> userIdNow c2 ->
  store w1' = store (exec (onSubmit specDb mail ev1 c1 d1) w) ->
  let w2 := exec (onSubmit specDb mail ev2 c2 d2) w1' in
  exists u b1 b2,
    users (store w2) = users (store w) ++ [u] /\
    filter (fun x => User.email x = email d1) (users (store w2)) = [u] /\
    bookings (store w2) = bookings (store w) ++ [b1; b2] /\
    Booking.userId b1 = User.id u /\
    Booking.userId b2 = pretty (userIdNow c2) /\
    Booking.userId b2 <> User.id u.
Proof.
  intros Hmail Hnew Hclock Hdb w2. subst w2.
  exists (draftUser c1 d1), (draftBooking ev1 c1 (draftUser c1 d1)),
         (draftBooking ev2 c2 (draftUser c2 d2)).
  rewrite onSubmit_store, Hdb, onSubmit_store.
  rewrite submitted_users, submitted_bookings.
  rewrite submitted_users, submitted_bookings, Hnew.
  assert (getUserByEmail specDb (email d2)
            (submitted ev1 c1 d1 (store w)) = Some (draftUser c1 d1)) as ->.
  { simpl. rewrite submitted_users, Hnew. simpl in Hnew |- *.
    rewrite find_app_none by (by rewrite <- Hmail).
    simpl. by rewrite bool_decide_eq_true_2. }
  repeat split.
  - rewrite filter_app, (find_none_filter _ _ Hnew). simpl.
    by rewrite filter_cons_True, filter_nil.
  - by rewrite <- app_assoc.
  - simpl. intros E. apply Hclock. symmetry. by apply (inj pretty).
Qed.

Lemma C1_second_booking_keeps_candidate_id_witness :
  let w := mkWorld store1 initialForm [] [] in
  let w1 := exec (onSubmit specDb always e0 (at_ 1000) ann) w in
  let w2 := exec (onSubmit specDb always e0 (at_ 2000) ann_again) w1 in
  (exists u b1 b2,
     users (store w2) = users (store w) ++ [u] /\
     filter (fun x => User.email x = email ann) (users (store w2)) = [u] /\
     bookings (store w2) = bookings (store w) ++ [b1; b2] /\
     Booking.userId b1 = User.id u /\
     Booking.userId b2 = pretty (userIdNow (at_ 2000)) /\
     Booking.userId b2 <> User.id u)
  /\ User.id <$> users (store w2) = ["1000"%string]
  /\ Booking.userId <$> bookings (store w2) = ["1000"%string; "2000"%string].
Proof.
  split; [|split; reflexivity].
  apply (C1_second_booking_keeps_candidate_id always e0 e0
           (at_ 1000) (at_ 2000) ann ann_again
           (mkWorld store1 initialForm [] [])
           (exec (onSubmit specDb always e0 (at_ 1000) ann)
              (mkWorld store1 initialForm [] []))).
  - reflexivity.
  - reflexivity.
  - vm_compute. discriminate.
  - reflexivity.
Defined.

(** ** Failure half way through a submission *)

(** C9, as stated, fails: on a store whose booking collection cannot be
    written, a submission leaves the new user in the store and no booking;
    the exception is caught and logged. *)
Lemma C9_user_left_without_booking :
  let w := mkWorld store1 initialForm [] [] in
  let w' := exec (onSubmit (bookingWriteFails specDb) always e1
                    (at_ 1000) ann) w in
  users (store w) = [] /\
  users (store w') = [draftUser (at_ 1000) ann] /\
  bookings (store w') = [] /\
  console w' = [StorageFailed] /\
  outcome (onSubmit (bookingWriteFails specDb) always e1 (at_ 1000) ann) w
  = inr tt.
Proof. vm_compute. repeat split. Qed.

(** C9, amended. [onSubmit] undoes nothing.  For a new e-mail: when the
    write of the user throws, the exception is logged and the store is as
    before; when the write of the user succeeds and the write of the booking
    throws, the exception is logged and the store is the one the write of
    the user produced, the user in it without a booking. *)
Theorem C9_no_rollback db mail ev clock data w :
  getUserByEmail db (email data) (store w) = None ->
  let user := draftUser clock data in
  let booking := draftBooking ev clock user in
  let w' := exec (onSubmit db mail ev clock data) w in
  outcome (onSubmit db mail ev clock data) w = inr tt
  /\ (forall e, addUser db user (store w) = inl e ->
      store w' = store w /\ console w' = console w ++ [e])
  /\ (forall d1 e,
        addUser db user (store w) = inr d1 ->
        addBooking db booking d1 = inl e ->
        store w' = d1 /\ console w' = console w ++ [e]).
Proof.
  intros Hnew user booking w'. subst user booking w'.
  split; [apply onSubmit_outcome|]. split.
  - intros e He. denote. rewrite Hnew. simpl. by rewrite He.
  - intros d1 e Hu Hb. denote. rewrite Hnew. simpl. rewrite Hu. simpl.
    by rewrite Hb.
Qed.

Lemma C9_no_rollback_witness :
  let w := mkWorld store1 initialForm [] [] in
  let w' := exec (onSubmit (bookingWriteFails specDb) always e1
                    (at_ 1000) ann) w in
  store w' = mkDatabase [draftUser (at_ 1000) ann] [e1; e0] []
  /\ console w' = [StorageFailed].
Proof.
  refine (proj2 (proj2 (C9_no_rollback (bookingWriteFails specDb) always e1
                          (at_ 1000) ann
                          (mkWorld store1 initialForm [] []) _))
            _ StorageFailed _ _); reflexivity.
Defined.

(** ** Payment *)

Lemma handlePaymentSuccess_store mail ev pid w u b :
  bookingData (form w) = Some (u, b) ->
  store (exec (handlePaymentSuccess specDb mail ev pid) w)
  = confirmed ev (Booking.id b) pid (store w).
Proof.
  intros H. unfold confirmed, pay, bump. denote. rewrite H.
  destruct (update_first _ _ (bookings (store w))); simpl; [|done].
  destruct (update_first _ _ (events (store w))); simpl; [|done].
  destruct (mail (BookingConfirmation _ _ _)); simpl; [|done].
  by destruct (mail (PaymentConfirmation _ _ _)).
Qed.

Lemma handlePaymentSuccess_idle mail ev pid w :
  bookingData (form w) = None ->
  exec (handlePaymentSuccess specDb mail ev pid) w = w.
Proof. intros H. denote. by rewrite H. Qed.

Lemma handlePaymentSuccess_bookingData mail ev pid w :
  bookingData (form (exec (handlePaymentSuccess specDb mail ev pid) w))
  = bookingData (form w).
Proof.
  denote. destruct (bookingData (form w)) as [[u b]|] eqn:E; simpl; [|done].
  destruct (update_first _ _ (bookings (store w))); simpl; [|done].
  destruct (update_first _ _ (events (store w))); simpl; [|done].
  destruct (mail (BookingConfirmation _ _ _)); simpl; [|done].
  by destruct (mail (PaymentConfirmation _ _ _)).
Qed.

Lemma handlePaymentSuccess_outcome mail ev pid w :
  outcome (handlePaymentSuccess specDb mail ev pid) w = inr tt
  \/ outcome (handlePaymentSuccess specDb mail ev pid) w = inl NotFound
  \/ outcome (handlePaymentSuccess specDb mail ev pid) w
     = inl NotificationFailed.
Proof.
  denote. destruct (bookingData (form w)) as [[u b]|]; [|auto].
  destruct (update_first _ _ (bookings (store w))); simpl; [|auto].
  destruct (update_first _ _ (events (store w))); simpl; [|auto].
  destruct (mail (BookingConfirmation _ _ _)); simpl; [|auto].
  destruct (mail (PaymentConfirmation _ _ _)); auto.
Qed.

Lemma handlePaymentSuccess_unknown mail ev pid w u b :
  bookingData (form w) = Some (u, b) ->
  getBooking (Booking.id b) (store w) = None ->
  handlePaymentSuccess specDb mail ev pid w = (inl NotFound, w).
Proof.
  intros H Hb. unfold getBooking in Hb.
  apply (update_first_none _
           (fun b => Booking.merge b (paymentUpdate pid))) in Hb.
  denote. rewrite H. by rewrite Hb.
Qed.

Lemma confirmed_events_twice ev i pid pid' d :
  events (confirmed ev i pid' (confirmed ev i pid d))
  = events (confirmed ev i pid d).
Proof.
  unfold confirmed.
  destruct (pay i pid (bookings d)) as [bs|] eqn:E; simpl.
  - destruct (pay i pid' bs) as [bs'|] eqn:E'; simpl; [|done].
    apply bump_idem.
  - unfold pay in *. apply update_first_none in E.
    apply (update_first_none _
             (fun b => Booking.merge b (paymentUpdate pid'))) in E.
    by rewrite E.
Qed.

Lemma confirmed_booking ev i pid d stored :
  getBooking i d = Some stored ->
  getBooking i (confirmed ev i pid d)
  = Some (Booking.merge stored (paymentUpdate pid)).
Proof.
  unfold getBooking, confirmed, pay. intros H.
  destruct (update_first _ _ (bookings d)) as [bs|] eqn:E; simpl.
  - apply update_first_find in E as (x & H1 & H2); [|done].
    rewrite H in H1. by inversion H1; subst.
  - apply update_first_none in E. congruence.
Qed.

Lemma handlePaymentSuccess_outcome_known mail ev pid w u b stored :
  bookingData (form w) = Some (u, b) ->
  getBooking (Booking.id b) (store w) = Some stored ->
  outcome (handlePaymentSuccess specDb mail ev pid) w
  = match getEvent (Event.id ev) (store w) with
    | None => inl NotFound
    | Some _ =>
        if mail (BookingConfirmation u ev (Booking.id b))
           && mail (PaymentConfirmation u ev pid)
        then inr tt else inl NotificationFailed
    end.
Proof.
  intros Hbd Hb. unfold getBooking in Hb. unfold getEvent.
  denote. rewrite Hbd.
  destruct (update_first _ _ (bookings (store w))) as [bs|] eqn:Eb; simpl.
  2:{ apply update_first_none in Eb. congruence. }
  destruct (update_first _ _ (events (store w))) as [es|] eqn:Ee; simpl.
  - destruct (List.find _ (events (store w))) eqn:Ef.
    2:{ apply (update_first_none _
                 (fun e => Event.merge e
                    (participantsUpdate (Event.currentParticipants ev + 1))))
          in Ef. congruence. }
    destruct (mail (BookingConfirmation _ _ _)); simpl; [|done].
    by destruct (mail (PaymentConfirmation _ _ _)).
  - apply update_first_none in Ee. by rewrite Ee.
Qed.

Lemma confirmed_count ev i pid d stored seen :
  getBooking i d = Some stored ->
  getEvent (Event.id ev) d = Some seen ->
  Event.currentParticipants <$> getEvent (Event.id ev) (confirmed ev i pid d)
  = Some (Event.currentParticipants ev + 1).
Proof.
  intros Hb He. unfold confirmed, pay.
  destruct (update_first _ _ (bookings d)) as [bs|] eqn:Eb.
  - change (getEvent (Event.id ev)
              {| users := users d; events := bump ev (events d);
                 bookings := bs |})
      with (getEvent (Event.id ev) (finalized ev d)).
    by rewrite (finalized_count _ _ _ He).
  - apply update_first_none in Eb. unfold getBooking in Hb. congruence.
Qed.

(** C5, as stated, fails: confirming the payment of a booking that is
    already completed is not rejected.  A paid booking is submitted; the
    gateway reports success while the e-mail service rejects, so that the
    booking is completed and the gateway is still shown; the gateway reports
    success again, the service now delivering: [handlePaymentSuccess] returns
    normally on the completed booking and replaces its payment identifier. *)
Lemma C5_second_confirmation_accepted :
  exists a1 a2 a3 inst,
    run specDb always isEmail_sample
      [Mount e1; Submit 0 (at_ 1000) ann] (mkApp store1 [] [] []) = Some a1 /\
    dispatch specDb never isEmail_sample (Payment 0 (Success "pay_123")) a1
    = Some a2 /\
    Booking.paymentStatus <$> getBooking "1000" (app_store a2)
    = Some completed /\
    app_forms a2 !! 0%nat = Some inst /\
    render e1 (state inst) = PaymentGatewayView 500 /\
    outcome (handlePaymentSuccess specDb always e1 "pay_456")
      (mkWorld (app_store a2) (state inst) (app_outbox a2) (app_console a2))
    = inr tt /\
    dispatch specDb always isEmail_sample (Payment 0 (Success "pay_456")) a2
    = Some a3 /\
    Booking.paymentId <$> getBooking "1000" (app_store a3)
    = Some (Some "pay_456"%string) /\
    Event.currentParticipants <$> getEvent "e1" (app_store a2) = Some 2 /\
    Event.currentParticipants <$> getEvent "e1" (app_store a3) = Some 2.
Proof.
  do 4 eexists.
  split; [vm_compute; reflexivity|].
  split; [vm_compute; reflexivity|].
  split; [vm_compute; reflexivity|].
  split; [vm_compute; reflexivity|].
  split; [vm_compute; reflexivity|].
  split; [vm_compute; reflexivity|].
  split; [vm_compute; reflexivity|].
  vm_compute. repeat split.
Qed.

(** C5, amended. [handlePaymentSuccess] has no test of the state of the
    booking and never throws [InvalidState].  For a booking the store does
    not know it throws [NotFound] and changes nothing.  For a booking the
    store knows, completed already or not, it replaces the payment
    identifier, writes the count of the form's event plus one, and returns
    normally exactly when the event is in the store and both e-mails are
    delivered; it throws [NotFound] when the event is not in the store and
    [NotificationFailed] when an e-mail is rejected.  The events after a
    repeated confirmation from the same form are the events the first
    confirmation left: the count is not raised twice. *)
Theorem C5_repeated_confirmation mail ev pid w u b :
  bookingData (form w) = Some (u, b) ->
  let r := outcome (handlePaymentSuccess specDb mail ev pid) w in
  let w1 := exec (handlePaymentSuccess specDb mail ev pid) w in
  r <> inl InvalidState
  /\ (getBooking (Booking.id b) (store w) = None ->
      r = inl NotFound /\ w1 = w)
  /\ (forall stored,
        getBooking (Booking.id b) (store w) = Some stored ->
        getBooking (Booking.id b) (store w1)
        = Some (Booking.merge stored (paymentUpdate pid))
        /\ r = match getEvent (Event.id ev) (store w) with
               | None => inl NotFound
               | Some _ =>
                   if mail (BookingConfirmation u ev (Booking.id b))
                      && mail (PaymentConfirmation u ev pid)
                   then inr tt else inl NotificationFailed
               end
        /\ (forall seen,
              getEvent (Event.id ev) (store w) = Some seen ->
              Event.currentParticipants <$> getEvent (Event.id ev) (store w1)
              = Some (Event.currentParticipants ev + 1)))
  /\ (forall mail' pid',
        events (store (exec (handlePaymentSuccess specDb mail' ev pid') w1))
        = events (store w1)).
Proof.
  intros H r w1. subst r w1.
  split; [|split; [|split]].
  - destruct (handlePaymentSuccess_outcome mail ev pid w) as [E|[E|E]];
      rewrite E; discriminate.
  - intros Hnone. unfold outcome, exec.
    by rewrite (handlePaymentSuccess_unknown _ _ _ _ _ _ H Hnone).
  - intros stored Hs.
    rewrite (handlePaymentSuccess_store _ _ _ _ _ _ H).
    split; [by apply confirmed_booking|].
    split; [by apply (handlePaymentSuccess_outcome_known _ _ _ _ _ _ stored)|].
    intros seen Hseen. by apply (confirmed_count _ _ _ _ stored seen).
  - intros mail' pid'.
    pose proof (handlePaymentSuccess_bookingData mail ev pid w) as Hbd.
    rewrite H in Hbd.
    rewrite (handlePaymentSuccess_store _ _ _ _ _ _ Hbd).
    rewrite (handlePaymentSuccess_store _ _ _ _ _ _ H).
    apply confirmed_events_twice.
Qed.

Lemma C5_repeated_confirmation_witness :
  let w0 := mkWorld store1 initialForm [] [] in
  let w1 := exec (onSubmit specDb always e1 (at_ 1000) ann) w0 in
  let w2 := exec (handlePaymentSuccess specDb never e1 "pay_123") w1 in
  let w3 := exec (handlePaymentSuccess specDb always e1 "pay_456") w2 in
  Booking.paymentStatus <$> getBooking "1000" (store w2) = Some completed
  /\ outcome (handlePaymentSuccess specDb always e1 "pay_456") w2 = inr tt
  /\ Booking.paymentId <$> getBooking "1000" (store w3)
     = Some (Some "pay_456"%string)
  /\ events (store w3) = events (store w2).
Proof.
  split; [reflexivity|].
  destruct (C5_repeated_confirmation always e1 "pay_456"
              (exec (handlePaymentSuccess specDb never e1 "pay_123")
                 (exec (onSubmit specDb always e1 (at_ 1000) ann)
                    (mkWorld store1 initialForm [] [])))
              (draftUser (at_ 1000) ann)
              (draftBooking e1 (at_ 1000) (draftUser (at_ 1000) ann))
              eq_refl)
    as (_ & _ & Hknown & _).
  destruct (Hknown
              (Booking.merge
                 (draftBooking e1 (at_ 1000) (draftUser (at_ 1000) ann))
                 (paymentUpdate "pay_123"))
              eq_refl)
    as (Hb & Hr & _).
  split; [exact Hr|].
  split; [exact (f_equal (fmap Booking.paymentId) Hb)|].
  reflexivity.
Defined.

(** C3, as stated, fails: a reported success need not raise the count.
    Two forms are mounted on the same event with count 1.  Both are
    submitted, the first payment succeeds and the count becomes 2; the second
    payment succeeds, the second booking becomes completed with its payment
    identifier, and the count is still 2. *)
Lemma C3_success_without_increment :
  exists a5 a6,
    run specDb always isEmail_sample
      [Mount e1; Mount e1; Submit 0 (at_ 1000) ann; Submit 1 (at_ 2000) bob;
       Payment 0 (Success "pay_1")]
      (mkApp store1 [] [] []) = Some a5 /\
    dispatch specDb always isEmail_sample (Payment 1 (Success "pay_2")) a5
    = Some a6 /\
    Booking.paymentStatus <$> getBooking "2000" (app_store a5) = Some pending /\
    Booking.paymentStatus <$> getBooking "2000" (app_store a6)
    = Some completed /\
    Booking.paymentId <$> getBooking "2000" (app_store a6)
    = Some (Some "pay_2"%string) /\
    Event.currentParticipants <$> getEvent "e1" (app_store a5) = Some 2 /\
    Event.currentParticipants <$> getEvent "e1" (app_store a6) = Some 2.
Proof.
  do 2 eexists.
  split; [vm_compute; reflexivity|].
  split; [vm_compute; reflexivity|].
  vm_compute. repeat split.
Qed.

Lemma onSubmit_showPayment mail ev clock data w :
  0 < Event.price ev ->
  showPayment (form (exec (onSubmit specDb mail ev clock data) w)) = true.
Proof.
  intros H. denote. rewrite bool_decide_eq_true_2 by done.
  by destruct (List.find _ (users (store w))).
Qed.

(** C3, amended. For a submission to a paid event, with a booking
    identifier new to the store: the booking is created [pending], without
    payment identifier, the gateway is shown, and the events are untouched.
    Cancelling leaves the store as it is.  On success the booking becomes
    [completed] with the payment identifier supplied, and the stored count
    of the event becomes the count of the form's event plus one, which is
    the stored count plus one when the two counts agree. *)
Theorem C3_paid_booking_flow mail ev clock data w :
  0 < Event.price ev ->
  getBooking (pretty (bookingIdNow clock)) (store w) = None ->
  let w1 := exec (onSubmit specDb mail ev clock data) w in
  exists u b,
    bookingData (form w1) = Some (u, b) /\
    bookings (store w1) = bookings (store w) ++ [b] /\
    Booking.paymentStatus b = pending /\
    Booking.paymentId b = None /\
    showPayment (form w1) = true /\
    events (store w1) = events (store w) /\
    store (exec onCancel w1) = store w1 /\
    forall paymentId,
      let w2 := exec (handlePaymentSuccess specDb mail ev paymentId) w1 in
      exists b',
        bookings (store w2) = bookings (store w) ++ [b'] /\
        Booking.id b' = Booking.id b /\
        Booking.paymentStatus b' = completed /\
        Booking.paymentId b' = Some paymentId /\
        forall stored,
          getEvent (Event.id ev) (store w) = Some stored ->
          Event.currentParticipants <$> getEvent (Event.id ev) (store w2)
          = Some (Event.currentParticipants ev + 1)
          /\ (Event.currentParticipants stored = Event.currentParticipants ev ->
              Event.currentParticipants <$> getEvent (Event.id ev) (store w2)
              = Some (Event.currentParticipants stored + 1)).
Proof.
  intros Hprice Hfresh w1. subst w1.
  exists (draftUser clock data), (draftBooking ev clock (draftUser clock data)).
  rewrite onSubmit_bookingData, onSubmit_store, submitted_bookings,
    (submitted_paid _ _ _ _ Hprice), (onSubmit_showPayment _ _ _ _ _ Hprice).
  repeat split.
  - simpl. by rewrite bool_decide_eq_true_2.
  - unfold onCancel, setShowPayment, modify_form, exec at 1. simpl.
    by rewrite onSubmit_store.
  - intros paymentId w2. subst w2.
    exists (Booking.merge (draftBooking ev clock (draftUser clock data))
              (paymentUpdate paymentId)).
    rewrite (handlePaymentSuccess_store _ _ _ _ _ _
               (onSubmit_bookingData mail ev clock data w)).
    rewrite onSubmit_store. unfold confirmed, pay.
    rewrite submitted_bookings, update_first_app_none by exact Hfresh.
    replace (has_id Booking.id
               (Booking.id (draftBooking ev clock (draftUser clock data)))
               (draftBooking ev clock (draftUser clock data)))
      with true by (symmetry; by apply bool_decide_eq_true_2).
    simpl. do 4 (split; [done|]).
    intros stored Hs.
    assert (Event.currentParticipants
              <$> getEvent (Event.id ev)
                    (finalized ev (submitted ev clock data (store w)))
            = Some (Event.currentParticipants ev + 1)) as Hcount.
    { erewrite finalized_count; [done|].
      unfold getEvent. by rewrite (submitted_paid _ _ _ _ Hprice). }
    unfold finalized, getEvent in Hcount. simpl in Hcount.
    unfold getEvent. simpl. split; [exact Hcount|].
    intros ->. exact Hcount.
Qed.

Lemma C3_paid_booking_flow_witness :
  let w := mkWorld store1 initialForm [] [] in
  let w1 := exec (onSubmit specDb always e1 (at_ 1000) ann) w in
  let w2 := exec (handlePaymentSuccess specDb always e1 "pay_123") w1 in
  (exists u b,
     bookingData (form w1) = Some (u, b) /\
     bookings (store w1) = bookings (store w) ++ [b] /\
     Booking.paymentStatus b = pending)
  /\ Booking.paymentStatus <$> bookings (store w2) = [completed]
  /\ Booking.paymentId <$> bookings (store w2) = [Some "pay_123"%string]
  /\ Event.currentParticipants <$> getEvent "e1" (store w2) = Some 2.
Proof.
  split; [|repeat split].
  destruct (C3_paid_booking_flow always e1 (at_ 1000) ann
              (mkWorld store1 initialForm [] []))
    as (u & b & H1 & H2 & H3 & _).
  - reflexivity.
  - reflexivity.
  - exists u, b. auto.
Defined.

(** ** Completed bookings and evidence of payment *)


Lemma handleSubmit_store isEmail (onValid : BookingFormData -> M unit) data w :
  store (exec (handleSubmit isEmail onValid data) w) = store w
  \/ exists w0, store w0 = store w /\
       store (exec (handleSubmit isEmail onValid data) w)
       = store (exec (onValid data) w0).
Proof.
  denote. destruct (bookingSchema isEmail data); simpl; [|by left].
  right. eexists (mkWorld (store w) _ (outbox w) (console w)). split; [done|].
  unfold exec. simpl. reflexivity.
Qed.


Lemma run_handler_store i h a a' :
  run_handler i h a = Some a' ->
  exists inst,
    app_forms a !! i = Some inst /\
    app_store a'
    = store (exec (h (props_event inst))
            (mkWorld (app_store a) (state inst)
                     (app_outbox a) (app_console a))).
Proof.
  unfold run_handler. destruct (app_forms a !! i) as [inst|]; [|discriminate].
  intros [= <-]. exists inst. simpl. auto.
Qed.







(** * Further properties *)

(** ** The admin session *)

Lemma isAuthenticated_logout ls :
  AuthService.isAuthenticated (AuthService.logout ls) = false.
Proof.
  unfold AuthService.isAuthenticated, AuthService.logout.
  rewrite lookup_delete_eq. by apply bool_decide_eq_false_2.
Qed.

Lemma isAuthenticated_login e p ls :
  AuthService.isAuthenticated (AuthService.login e p ls).2
  = (AuthService.login e p ls).1 || AuthService.isAuthenticated ls.
Proof.
  unfold AuthService.login.
  destruct (bool_decide _ && bool_decide _); simpl; [|done].
  unfold AuthService.isAuthenticated. rewrite lookup_insert_eq.
  by apply bool_decide_eq_true_2.
Qed.

Lemma login_accepts e p ls :
  (AuthService.login e p ls).1 = true
  <-> e = AuthService.ADMIN_EMAIL /\ p = AuthService.ADMIN_PASSWORD.
Proof.
  unfold AuthService.login.
  destruct (bool_decide (e = _) && bool_decide (p = _)) eqn:E; simpl.
  - apply andb_true_iff in E as [E1%bool_decide_eq_true E2%bool_decide_eq_true].
    done.
  - split; [discriminate|]. intros [-> ->]. discriminate E.
Qed.

Lemma calls_snoc cs c ls :
  AuthService.calls (cs ++ [c]) ls
  = AuthService.call c (AuthService.calls cs ls).
Proof. unfold AuthService.calls. by rewrite foldl_app. Qed.

Lemma calls_app cs cs' ls :
  AuthService.calls (cs ++ cs') ls
  = AuthService.calls cs' (AuthService.calls cs ls).
Proof. unfold AuthService.calls. by rewrite foldl_app. Qed.

(** X1. [login] answers [true] for the fixed admin credentials and for
    nothing else, compared exactly; the browser is authenticated after a
    call of [login] exactly when the credentials were the admin's or it was
    authenticated before: a refused login does not end a session. *)
Theorem AuthService_login_exact e p ls :
  ((AuthService.login e p ls).1 = true
   <-> e = AuthService.ADMIN_EMAIL /\ p = AuthService.ADMIN_PASSWORD)
  /\ (AuthService.isAuthenticated (AuthService.login e p ls).2 = true
      <-> (e = AuthService.ADMIN_EMAIL /\ p = AuthService.ADMIN_PASSWORD)
          \/ AuthService.isAuthenticated ls = true)
  /\ ((AuthService.login e p ls).1 = false
      -> (AuthService.login e p ls).2 = ls).
Proof.
  split; [apply login_accepts|]. split.
  - rewrite isAuthenticated_login, orb_true_iff, login_accepts. done.
  - unfold AuthService.login.
    by destruct (bool_decide _ && bool_decide _).
Qed.

(** X2. The service writes one key only: whatever calls of [login] and
    [logout] are made, every other key of [localStorage] keeps its value. *)
Theorem AuthService_other_keys_untouched cs ls k :
  k <> AuthService.AUTH_KEY ->
  AuthService.calls cs ls !! k = ls !! k.
Proof.
  intros Hk. induction cs as [|c cs IH] using rev_ind; [done|].
  rewrite calls_snoc, <- IH.
  destruct c as [e p|]; simpl.
  - unfold AuthService.login.
    destruct (bool_decide _ && bool_decide _); simpl; [|done].
    by rewrite lookup_insert_ne.
  - unfold AuthService.logout. by rewrite lookup_delete_ne.
Qed.

Lemma AuthService_other_keys_untouched_witness :
  AuthService.calls
    [AuthService.Login AuthService.ADMIN_EMAIL AuthService.ADMIN_PASSWORD;
     AuthService.Logout;
     AuthService.Login "someone@x.com" "guess"]
    {["theme" := "dark"]} !! "theme"
  = ({["theme" := "dark"]} : gmap string string) !! "theme".
Proof.
  apply (AuthService_other_keys_untouched
           [AuthService.Login AuthService.ADMIN_EMAIL
              AuthService.ADMIN_PASSWORD;
            AuthService.Logout;
            AuthService.Login "someone@x.com" "guess"]
           {["theme" := "dark"%string]} "theme").
  vm_compute. discriminate.
Defined.

(** X3. No session without the credentials: from a browser that is not
    authenticated, a sequence of calls that contains no login with exactly
    the admin credentials leaves it not authenticated. *)
Theorem AuthService_no_session_without_credentials cs ls :
  AuthService.isAuthenticated ls = false ->
  AuthService.Login AuthService.ADMIN_EMAIL AuthService.ADMIN_PASSWORD ∉ cs ->
  AuthService.isAuthenticated (AuthService.calls cs ls) = false.
Proof.
  intros Hls. induction cs as [|c cs IH] using rev_ind; [done|].
  intros Hcs. rewrite calls_snoc.
  apply not_elem_of_app in Hcs as [Hcs Hc].
  specialize (IH Hcs). destruct c as [e p|]; simpl.
  - rewrite isAuthenticated_login, IH, orb_false_r.
    destruct (AuthService.login e p _).1 eqn:E; [|done].
    apply login_accepts in E as [-> ->].
    exfalso. apply Hc. by apply list_elem_of_singleton.
  - apply isAuthenticated_logout.
Qed.

Lemma AuthService_no_session_without_credentials_witness :
  AuthService.isAuthenticated
    (AuthService.calls
       [AuthService.Login AuthService.ADMIN_EMAIL "YogaKarlo";
        AuthService.Login "YOGAIIPSADMIN@gmail.com" AuthService.ADMIN_PASSWORD;
        AuthService.Logout]
       ∅) = false.
Proof.
  apply AuthService_no_session_without_credentials.
  - reflexivity.
  - rewrite !elem_of_cons, elem_of_nil.
    intros [H|[H|[H|[]]]]; discriminate H.
Defined.

(** X4. A session lasts until [logout]: in an authenticated browser,
    calls of [login], accepted or refused, leave it authenticated. *)
Theorem AuthService_session_lasts_until_logout cs ls :
  AuthService.isAuthenticated ls = true ->
  AuthService.Logout ∉ cs ->
  AuthService.isAuthenticated (AuthService.calls cs ls) = true.
Proof.
  intros Hls. induction cs as [|c cs IH] using rev_ind; [done|].
  intros Hcs. rewrite calls_snoc.
  apply not_elem_of_app in Hcs as [Hcs Hc].
  specialize (IH Hcs). destruct c as [e p|]; simpl.
  - by rewrite isAuthenticated_login, IH, orb_true_r.
  - exfalso. apply Hc. by apply list_elem_of_singleton.
Qed.

Lemma AuthService_session_lasts_until_logout_witness :
  AuthService.isAuthenticated
    (AuthService.calls
       [AuthService.Login "someone@x.com" "guess";
        AuthService.Login AuthService.ADMIN_EMAIL "wrong"]
       {[AuthService.AUTH_KEY := "authenticated"]}) = true.
Proof.
  apply AuthService_session_lasts_until_logout.
  - reflexivity.
  - rewrite !elem_of_cons, elem_of_nil.
    intros [H|[H|[]]]; discriminate H.
Defined.

(** X5. [logout] ends the session whatever came before, and the browser
    stays not authenticated through the calls that follow until one of them
    is a login with the admin credentials. *)
Theorem AuthService_logout_ends_session cs rest ls :
  AuthService.Login AuthService.ADMIN_EMAIL AuthService.ADMIN_PASSWORD
    ∉ rest ->
  AuthService.isAuthenticated
    (AuthService.calls (cs ++ AuthService.Logout :: rest) ls) = false.
Proof.
  intros Hrest.
  change (AuthService.Logout :: rest) with ([AuthService.Logout] ++ rest).
  rewrite app_assoc, calls_app, calls_snoc. simpl.
  revert Hrest. generalize (AuthService.logout (AuthService.calls cs ls))
    (isAuthenticated_logout (AuthService.calls cs ls)).
  intros ls' Hls'. induction rest as [|c rest IH] using rev_ind; [done|].
  intros Hcs. rewrite calls_snoc.
  apply not_elem_of_app in Hcs as [Hcs Hc].
  specialize (IH Hcs). destruct c as [e p|]; simpl.
  - rewrite isAuthenticated_login, IH, orb_false_r.
    destruct (AuthService.login e p _).1 eqn:E; [|done].
    apply login_accepts in E as [-> ->].
    exfalso. apply Hc. by apply list_elem_of_singleton.
  - apply isAuthenticated_logout.
Qed.

Lemma AuthService_logout_ends_session_witness :
  AuthService.isAuthenticated
    (AuthService.calls
       ([AuthService.Login AuthService.ADMIN_EMAIL AuthService.ADMIN_PASSWORD]
        ++ AuthService.Logout :: [AuthService.Login "a@x.com" "yogakarlo"])
       ∅) = false.
Proof.
  apply AuthService_logout_ends_session.
  rewrite !elem_of_cons, elem_of_nil.
  intros [H|[]]; discriminate H.
Defined.

(** ** Submitting *)

Lemma bookingSchema_valid isEmail data :
  valid isEmail data -> bookingSchema isEmail data = [].
Proof.
  intros (Hn & He & Hp & Hs). unfold bookingSchema, check.
  by rewrite !bool_decide_eq_true_2, He by done.
Qed.

Lemma onSubmit_errors db mail ev clock data w :
  errors (form (exec (onSubmit db mail ev clock data) w)) = errors (form w).
Proof.
  denote. repeat (case_match; simplify_eq/=; try done).
Qed.

Lemma onSubmit_isSubmitting db mail ev clock data w :
  isSubmitting (form (exec (onSubmit db mail ev clock data) w)) = false.
Proof.
  denote. repeat (case_match; simplify_eq/=; try done).
Qed.

Lemma getEvent_update_first i d stored (f : Event.t -> Event.t) :
  getEvent i d = Some stored ->
  exists es, update_first (has_id Event.id i) f (events d) = Some es.
Proof.
  unfold getEvent. intros H.
  destruct (update_first (has_id Event.id i) f (events d)) as [es|] eqn:E;
    [by exists es|].
  apply update_first_none in E. congruence.
Qed.

Lemma getEvent_update_first_none i d (f : Event.t -> Event.t) :
  getEvent i d = None ->
  update_first (has_id Event.id i) f (events d) = None.
Proof. unfold getEvent. intros H. by apply update_first_none. Qed.

Lemma submitted_free_count ev clock data d stored :
  Event.price ev = 0 ->
  getEvent (Event.id ev) d = Some stored ->
  Event.currentParticipants <$> getEvent (Event.id ev)
                                  (submitted ev clock data d)
  = Some (Event.currentParticipants ev + 1).
Proof.
  intros Hfree Hev. unfold submitted.
  rewrite bool_decide_eq_false_2 by lia. cbv zeta.
  by erewrite finalized_count.
Qed.

(** X6. Input that passes the four checks is submitted: the errors of the
    form are cleared, [onSubmit] runs, and the store gains exactly the
    booking built from the input. *)
Theorem handleSubmit_accepts_valid isEmail mail ev clock data w :
  valid isEmail data ->
  let w' :=
    exec (handleSubmit isEmail (onSubmit specDb mail ev clock) data) w in
  errors (form w') = []
  /\ store w' = submitted ev clock data (store w)
  /\ bookings (store w')
     = bookings (store w) ++ [draftBooking ev clock (draftUser clock data)]
  /\ bookingData (form w')
     = Some (draftUser clock data,
             draftBooking ev clock (draftUser clock data)).
Proof.
  intros Hv w'. subst w'.
  assert (forall w0,
    exec (handleSubmit isEmail (onSubmit specDb mail ev clock) data) w0
    = exec (onSubmit specDb mail ev clock data)
        (mkWorld (store w0)
           (mkForm (isSubmitting (form w0)) (showPayment (form w0))
                   (bookingData (form w0)) (success (form w0)) [])
           (outbox w0) (console w0))) as ->.
  { intros w0. unfold handleSubmit, exec at 1, bind, setErrors, modify_form.
    simpl. by rewrite (bookingSchema_valid _ _ Hv). }
  rewrite onSubmit_errors, onSubmit_store, onSubmit_bookingData,
    submitted_bookings.
  done.
Qed.

Lemma handleSubmit_accepts_valid_witness :
  let w := mkWorld store1 initialForm [] [] in
  let w' :=
    exec (handleSubmit isEmail_sample (onSubmit specDb always e1 (at_ 1000))
            ann) w in
  errors (form w') = [] /\
  bookings (store w') = [draftBooking e1 (at_ 1000) (draftUser (at_ 1000) ann)].
Proof.
  destruct (handleSubmit_accepts_valid isEmail_sample always e1 (at_ 1000) ann
              (mkWorld store1 initialForm [] []))
    as (H1 & _ & H2 & _).
  - unfold valid. simpl. repeat split; lia.
  - split; [exact H1 | exact H2].
Defined.

(** X7. A free event is booked in one step: when the event is in the store
    and the e-mail service delivers, [onSubmit] appends a completed booking
    of amount 0, writes the count of the form's event plus one, sends the
    booking confirmation, shows the confirmation card, and logs nothing. *)
Theorem onSubmit_free_event_completes mail ev clock data w stored :
  Event.price ev = 0 ->
  getEvent (Event.id ev) (store w) = Some stored ->
  mail (BookingConfirmation (draftUser clock data) ev
          (pretty (bookingIdNow clock))) = true ->
  let w' := exec (onSubmit specDb mail ev clock data) w in
  let booking := draftBooking ev clock (draftUser clock data) in
  Booking.paymentStatus booking = completed
  /\ Booking.amount booking = 0
  /\ bookings (store w') = bookings (store w) ++ [booking]
  /\ Event.currentParticipants <$> getEvent (Event.id ev) (store w')
     = Some (Event.currentParticipants ev + 1)
  /\ outbox w'
     = outbox w ++ [BookingConfirmation (draftUser clock data) ev
                      (Booking.id booking)]
  /\ console w' = console w
  /\ render ev (form w') = ConfirmedCard.
Proof.
  intros Hfree Hev Hmail w' booking. subst w' booking.
  assert (bool_decide (0 < Event.price ev) = false) as Hb
    by (apply bool_decide_eq_false_2; lia).
  split; [simpl; by rewrite Hb|]. split; [done|].
  rewrite onSubmit_store, submitted_bookings. split; [done|]. split.
  { by apply (submitted_free_count _ _ _ _ stored). }
  destruct (getEvent_update_first _ _ _
              (fun e => Event.merge e
                 (participantsUpdate (Event.currentParticipants ev + 1)))
              Hev) as [es Hes].
  unfold render. denote. rewrite Hb.
  destruct (List.find _ (users (store w))); simpl;
    rewrite Hes; simpl; simpl in Hmail; rewrite Hmail; done.
Qed.

Lemma onSubmit_free_event_completes_witness :
  let w := mkWorld store1 initialForm [] [] in
  let w' := exec (onSubmit specDb always e0 (at_ 1000) ann) w in
  Event.currentParticipants <$> getEvent "e0" (store w') = Some 4
  /\ render e0 (form w') = ConfirmedCard.
Proof.
  destruct (onSubmit_free_event_completes always e0 (at_ 1000) ann
              (mkWorld store1 initialForm [] []) e0)
    as (_ & _ & _ & H1 & _ & _ & H2).
  - reflexivity.
  - reflexivity.
  - reflexivity.
  - split; [exact H1 | exact H2].
Defined.

(** X8. A rejected confirmation e-mail undoes nothing: on a free event
    whose e-mail is rejected, the completed booking and the new count stay in
    the store, the exception is logged, nothing is in the outbox, and the
    confirmation card is not shown (the [success] flag is as before). *)
Theorem onSubmit_free_event_mail_rejected mail ev clock data w stored :
  Event.price ev = 0 ->
  getEvent (Event.id ev) (store w) = Some stored ->
  mail (BookingConfirmation (draftUser clock data) ev
          (pretty (bookingIdNow clock))) = false ->
  let w' := exec (onSubmit specDb mail ev clock data) w in
  bookings (store w')
  = bookings (store w) ++ [draftBooking ev clock (draftUser clock data)]
  /\ Event.currentParticipants <$> getEvent (Event.id ev) (store w')
     = Some (Event.currentParticipants ev + 1)
  /\ outbox w' = outbox w
  /\ console w' = console w ++ [NotificationFailed]
  /\ success (form w') = success (form w)
  /\ outcome (onSubmit specDb mail ev clock data) w = inr tt.
Proof.
  intros Hfree Hev Hmail w'. subst w'.
  assert (bool_decide (0 < Event.price ev) = false) as Hb
    by (apply bool_decide_eq_false_2; lia).
  rewrite onSubmit_store, submitted_bookings. split; [done|]. split.
  { by apply (submitted_free_count _ _ _ _ stored). }
  destruct (getEvent_update_first _ _ _
              (fun e => Event.merge e
                 (participantsUpdate (Event.currentParticipants ev + 1)))
              Hev) as [es Hes].
  denote. rewrite Hb.
  destruct (List.find _ (users (store w))); simpl;
    rewrite Hes; simpl; simpl in Hmail; rewrite Hmail; done.
Qed.

Lemma onSubmit_free_event_mail_rejected_witness :
  let w := mkWorld store1 initialForm [] [] in
  let w' := exec (onSubmit specDb never e0 (at_ 1000) ann) w in
  Event.currentParticipants <$> getEvent "e0" (store w') = Some 4
  /\ console w' = [NotificationFailed]
  /\ success (form w') = false.
Proof.
  destruct (onSubmit_free_event_mail_rejected never e0 (at_ 1000) ann
              (mkWorld store1 initialForm [] []) e0)
    as (_ & H1 & _ & H2 & H3 & _).
  - reflexivity.
  - reflexivity.
  - reflexivity.
  - split; [exact H1|]. split; [exact H2 | exact H3].
Defined.

(** X9. A free event that the store does not know: the completed booking
    is appended all the same, the events are untouched, [NotFound] is
    logged, no e-mail is sent and the confirmation card is not shown. *)
Theorem onSubmit_free_event_unknown mail ev clock data w :
  Event.price ev = 0 ->
  getEvent (Event.id ev) (store w) = None ->
  let w' := exec (onSubmit specDb mail ev clock data) w in
  bookings (store w')
  = bookings (store w) ++ [draftBooking ev clock (draftUser clock data)]
  /\ events (store w') = events (store w)
  /\ outbox w' = outbox w
  /\ console w' = console w ++ [NotFound]
  /\ success (form w') = success (form w).
Proof.
  intros Hfree Hev w'. subst w'.
  assert (bool_decide (0 < Event.price ev) = false) as Hb
    by (apply bool_decide_eq_false_2; lia).
  rewrite onSubmit_store, submitted_bookings. split; [done|].
  pose proof (getEvent_update_first_none _ _
                (fun e => Event.merge e
                   (participantsUpdate (Event.currentParticipants ev + 1)))
                Hev) as Hes.
  split.
  { unfold submitted, finalized, bump. rewrite Hb. simpl. by rewrite Hes. }
  denote. rewrite Hb.
  destruct (List.find _ (users (store w))); simpl; rewrite Hes; done.
Qed.

Lemma onSubmit_free_event_unknown_witness :
  let w := mkWorld (mkDatabase [] [e1] []) initialForm [] [] in
  let w' := exec (onSubmit specDb always e0 (at_ 1000) ann) w in
  length (bookings (store w')) = 1%nat
  /\ events (store w') = [e1]
  /\ console w' = [NotFound].
Proof.
  destruct (onSubmit_free_event_unknown always e0 (at_ 1000) ann
              (mkWorld (mkDatabase [] [e1] []) initialForm [] []))
    as (H1 & H2 & _ & H3 & _).
  - reflexivity.
  - reflexivity.
  - split; [by rewrite H1|]. split; [exact H2 | exact H3].
Defined.

(** X10. [onSubmit] never throws and always ends with [isSubmitting]
    false, whatever the store and the e-mail service do: every exception is
    caught and the flag is reset on every path. *)
Theorem onSubmit_catches_everything db mail ev clock data w :
  outcome (onSubmit db mail ev clock data) w = inr tt
  /\ isSubmitting (form (exec (onSubmit db mail ev clock data) w)) = false
  /\ errors (form (exec (onSubmit db mail ev clock data) w))
     = errors (form w).
Proof.
  split; [apply onSubmit_outcome|].
  split; [apply onSubmit_isSubmitting | apply onSubmit_errors].
Qed.

(** X11. A paid event goes to the gateway and back: after [onSubmit] on a
    form that is not confirmed, the payment gateway is rendered for the price
    of the event, no e-mail has been sent and nothing is logged; after
    [onCancel] the form is rendered again, and the form still holds the
    pending booking. *)
Theorem onSubmit_paid_event_shows_gateway mail ev clock data w :
  0 < Event.price ev ->
  success (form w) = false ->
  let w' := exec (onSubmit specDb mail ev clock data) w in
  render ev (form w') = PaymentGatewayView (Event.price ev)
  /\ outbox w' = outbox w
  /\ console w' = console w
  /\ render ev (form (exec onCancel w')) = FormView
  /\ bookingData (form (exec onCancel w')) = bookingData (form w')
  /\ store (exec onCancel w') = store w'.
Proof.
  intros Hpaid Hs w'. subst w'.
  unfold render. denote. rewrite bool_decide_eq_true_2 by done.
  destruct (List.find _ (users (store w))); simpl; by rewrite Hs.
Qed.

Lemma onSubmit_paid_event_shows_gateway_witness :
  let w := mkWorld store1 initialForm [] [] in
  let w' := exec (onSubmit specDb always e1 (at_ 1000) ann) w in
  render e1 (form w') = PaymentGatewayView 500
  /\ render e1 (form (exec onCancel w')) = FormView.
Proof.
  destruct (onSubmit_paid_event_shows_gateway always e1 (at_ 1000) ann
              (mkWorld store1 initialForm [] []))
    as (H1 & _ & _ & H2 & _).
  - reflexivity.
  - reflexivity.
  - split; [exact H1 | exact H2].
Defined.

(** X12. The submit button tells what the submission will do: on a form
    that is not submitting, it says "Proceed to Payment" exactly when
    [onSubmit] creates a pending booking and turns to the gateway, and "Book
    Now (Free)" exactly when [onSubmit] creates a completed booking; while a
    submission is in progress the button is disabled. *)
Theorem submitButton_announces_flow mail ev clock data w :
  isSubmitting (form w) = false ->
  let w' := exec (onSubmit specDb mail ev clock data) w in
  let created := Booking.paymentStatus
                   <$> (snd <$> bookingData (form w')) in
  (submitButton ev (form w)).1 = false
  /\ ((submitButton ev (form w)).2 = "Proceed to Payment"%string
      <-> created = Some pending /\ showPayment (form w') = true)
  /\ ((submitButton ev (form w)).2 = "Book Now (Free)"%string
      <-> created = Some completed).
Proof.
  intros Hs w' created. subst w' created.
  rewrite onSubmit_bookingData. unfold submitButton. rewrite Hs. simpl.
  split; [done|].
  destruct (bool_decide (0 < Event.price ev)) eqn:E.
  - apply bool_decide_eq_true in E.
    rewrite (onSubmit_showPayment _ _ _ _ _ E).
    split; (split; [intros H|intros H]); try done.
  - split; (split; [intros H|intros H]); try done.
    by destruct H.
Qed.

Lemma submitButton_announces_flow_witness :
  (submitButton e1 initialForm).2 = "Proceed to Payment"%string
  <-> Booking.paymentStatus
        <$> (snd <$> bookingData
               (form (exec (onSubmit specDb always e1 (at_ 1000) ann)
                        (mkWorld store1 initialForm [] []))))
      = Some pending
      /\ showPayment
           (form (exec (onSubmit specDb always e1 (at_ 1000) ann)
                    (mkWorld store1 initialForm [] []))) = true.
Proof.
  apply (submitButton_announces_flow always e1 (at_ 1000) ann
           (mkWorld store1 initialForm [] [])).
  reflexivity.
Defined.

(** ** Confirming a payment *)

(** X13. The effects of [handlePaymentSuccess] come in one order and stop
    at the first failure.  With a booking in the form, either everything
    succeeded (the store is updated, both e-mails are in the outbox, booking
    confirmation first, and [success] is set); or the store threw [NotFound]
    and neither e-mail nor form changed; or an e-mail was rejected, and then
    the store is updated and no payment confirmation was sent. *)
Theorem handlePaymentSuccess_order_of_effects mail ev paymentId w u b :
  bookingData (form w) = Some (u, b) ->
  let w' := exec (handlePaymentSuccess specDb mail ev paymentId) w in
  let r := outcome (handlePaymentSuccess specDb mail ev paymentId) w in
  let bc := BookingConfirmation u ev (Booking.id b) in
  let pc := PaymentConfirmation u ev paymentId in
  (r = inr tt
   /\ store w' = confirmed ev (Booking.id b) paymentId (store w)
   /\ outbox w' = outbox w ++ [bc; pc]
   /\ success (form w') = true)
  \/ (r = inl NotFound
      /\ outbox w' = outbox w /\ form w' = form w
      /\ (getBooking (Booking.id b) (store w) = None
          \/ getEvent (Event.id ev) (store w) = None))
  \/ (r = inl NotificationFailed
      /\ store w' = confirmed ev (Booking.id b) paymentId (store w)
      /\ ((mail bc = false /\ outbox w' = outbox w /\ form w' = form w)
          \/ (mail pc = false /\ outbox w' = outbox w ++ [bc]
              /\ success (form w') = true))).
Proof.
  intros Hbd w' r bc pc. subst w' r bc pc.
  rewrite (handlePaymentSuccess_store _ _ _ _ _ _ Hbd).
  unfold confirmed, pay, bump, getBooking, getEvent. denote. rewrite Hbd.
  destruct (update_first _ _ (bookings (store w))) as [bs|] eqn:Eb; simpl.
  2:{ right; left. apply update_first_none in Eb. auto. }
  destruct (update_first _ _ (events (store w))) as [es|] eqn:Ee; simpl.
  2:{ right; left. apply update_first_none in Ee. auto. }
  destruct (mail (BookingConfirmation _ _ _)) eqn:E1; simpl.
  2:{ right; right. by auto 10. }
  destruct (mail (PaymentConfirmation _ _ _)) eqn:E2; simpl.
  - left. rewrite <- app_assoc. auto.
  - right; right. by auto 10.
Qed.

Lemma handlePaymentSuccess_order_of_effects_witness :
  let w0 := mkWorld store1 initialForm [] [] in
  let w1 := exec (onSubmit specDb always e1 (at_ 1000) ann) w0 in
  let w2 := exec (handlePaymentSuccess specDb always e1 "pay_123") w1 in
  let u := draftUser (at_ 1000) ann in
  outbox w2 = [BookingConfirmation u e1 "1000";
               PaymentConfirmation u e1 "pay_123"].
Proof.
  destruct (handlePaymentSuccess_order_of_effects always e1 "pay_123"
              (exec (onSubmit specDb always e1 (at_ 1000) ann)
                 (mkWorld store1 initialForm [] []))
              (draftUser (at_ 1000) ann)
              (draftBooking e1 (at_ 1000) (draftUser (at_ 1000) ann))
              eq_refl)
    as [(_ & _ & H & _)|[(H & _)|(H & _)]].
  - exact H.
  - discriminate H.
  - discriminate H.
Defined.

(** X14. A payment for an event the store does not know is half recorded:
    the booking is completed with the payment identifier, then [NotFound] is
    thrown; the events are untouched, no e-mail is sent and the form is as
    before, the gateway still shown. *)
Theorem handlePaymentSuccess_event_unknown mail ev paymentId w u b stored :
  bookingData (form w) = Some (u, b) ->
  getBooking (Booking.id b) (store w) = Some stored ->
  getEvent (Event.id ev) (store w) = None ->
  let w' := exec (handlePaymentSuccess specDb mail ev paymentId) w in
  outcome (handlePaymentSuccess specDb mail ev paymentId) w = inl NotFound
  /\ getBooking (Booking.id b) (store w')
     = Some (Booking.merge stored (paymentUpdate paymentId))
  /\ events (store w') = events (store w)
  /\ outbox w' = outbox w
  /\ form w' = form w.
Proof.
  intros Hbd Hb He w'. subst w'.
  pose proof (getEvent_update_first_none _ _
                (fun e => Event.merge e
                   (participantsUpdate (Event.currentParticipants ev + 1)))
                He) as Hes.
  split; [|split].
  - denote. rewrite Hbd.
    destruct (update_first _ _ (bookings (store w))) as [bs|] eqn:Eb; simpl.
    + by rewrite Hes.
    + apply update_first_none in Eb. unfold getBooking in Hb. congruence.
  - rewrite (handlePaymentSuccess_store _ _ _ _ _ _ Hbd).
    by apply confirmed_booking.
  - rewrite (handlePaymentSuccess_store _ _ _ _ _ _ Hbd).
    unfold confirmed, bump. rewrite Hes.
    split; [by destruct (pay _ _ _)|].
    denote. rewrite Hbd.
    destruct (update_first _ _ (bookings (store w))) as [bs|]; simpl;
      [by rewrite Hes|done].
Qed.

Lemma handlePaymentSuccess_event_unknown_witness :
  let b := draftBooking e1 (at_ 1000) (draftUser (at_ 1000) ann) in
  let w := mkWorld (mkDatabase [] [e0] [b])
             (mkForm false true (Some (draftUser (at_ 1000) ann, b)) false [])
             [] [] in
  let w' := exec (handlePaymentSuccess specDb always e1 "pay_123") w in
  Booking.paymentStatus <$> getBooking "1000" (store w') = Some completed
  /\ events (store w') = [e0]
  /\ render e1 (form w') = PaymentGatewayView 500.
Proof.
  destruct (handlePaymentSuccess_event_unknown always e1 "pay_123"
              (mkWorld
                 (mkDatabase [] [e0]
                    [draftBooking e1 (at_ 1000) (draftUser (at_ 1000) ann)])
                 (mkForm false true
                    (Some (draftUser (at_ 1000) ann,
                           draftBooking e1 (at_ 1000)
                             (draftUser (at_ 1000) ann))) false [])
                 [] [])
              (draftUser (at_ 1000) ann)
              (draftBooking e1 (at_ 1000) (draftUser (at_ 1000) ann))
              (draftBooking e1 (at_ 1000) (draftUser (at_ 1000) ann)))
    as (_ & H1 & H2 & _ & H3).
  - reflexivity.
  - reflexivity.
  - reflexivity.
  - split; [exact (f_equal (fmap Booking.paymentStatus) H1)|].
    split; [exact H2|]. exact (f_equal (render e1) H3).
Defined.

(** ** What the application keeps *)

Lemma update_first_Forall2 {A} (R : A -> A -> Prop) sel (f : A -> A) l l' :
  (forall x, R x x) ->
  (forall x, R x (f x)) ->
  update_first sel f l = Some l' ->
  Forall2 R l l'.
Proof.
  intros Hrefl Hf. revert l'.
  induction l as [|x l IH]; simpl; intros l' H; [discriminate|].
  destruct (sel x).
  - inversion H; subst. constructor; [apply Hf|].
    apply Forall_Forall2_diag, Forall_forall. auto.
  - destruct (update_first sel f l) as [r|]; [|discriminate].
    inversion H; subst. constructor; auto.
Qed.

Lemma Forall2_trans {A} (R : A -> A -> Prop) l1 l2 l3 :
  (forall x y z, R x y -> R y z -> R x z) ->
  Forall2 R l1 l2 -> Forall2 R l2 l3 -> Forall2 R l1 l3.
Proof.
  intros Htrans H12. revert l3.
  induction H12 as [|x y l1 l2 Hxy _ IH]; intros l3 H23;
    inversion H23; subst; constructor; eauto.
Qed.

Lemma Forall2_refl {A} (R : A -> A -> Prop) l :
  (forall x, R x x) -> Forall2 R l l.
Proof. intros H. apply Forall_Forall2_diag, Forall_forall. auto. Qed.

Lemma same_but_count_refl e : same_but_count e e.
Proof. by unfold same_but_count. Qed.

Lemma same_but_count_trans e1 e2 e3 :
  same_but_count e1 e2 -> same_but_count e2 e3 -> same_but_count e1 e3.
Proof. unfold same_but_count. intuition congruence. Qed.

Lemma evolves_refl b : evolves b b.
Proof. by unfold evolves. Qed.

Lemma evolves_trans b1 b2 b3 :
  evolves b1 b2 -> evolves b2 b3 -> evolves b1 b3.
Proof. unfold evolves. intuition congruence. Qed.

Lemma bump_same_but_count ev es : Forall2 same_but_count es (bump ev es).
Proof.
  unfold bump.
  destruct (update_first _ _ es) as [es'|] eqn:E; simpl.
  - eapply update_first_Forall2; [apply same_but_count_refl| |exact E].
    intros e. by unfold same_but_count.
  - apply Forall2_refl, same_but_count_refl.
Qed.

Lemma confirmed_users ev i pid d : users (confirmed ev i pid d) = users d.
Proof. unfold confirmed. by destruct (pay _ _ _). Qed.

Lemma confirmed_events ev i pid d :
  Forall2 same_but_count (events d) (events (confirmed ev i pid d)).
Proof.
  unfold confirmed. destruct (pay _ _ _); simpl.
  - apply bump_same_but_count.
  - apply Forall2_refl, same_but_count_refl.
Qed.

Lemma confirmed_bookings ev i pid d :
  Forall2 evolves (bookings d) (bookings (confirmed ev i pid d)).
Proof.
  unfold confirmed, pay.
  destruct (update_first _ _ (bookings d)) as [bs|] eqn:E; simpl.
  - eapply update_first_Forall2; [apply evolves_refl| |exact E].
    intros b. by unfold evolves.
  - apply Forall2_refl, evolves_refl.
Qed.

Lemma submitted_events ev clock data d :
  Forall2 same_but_count (events d) (events (submitted ev clock data d)).
Proof.
  unfold submitted. destruct (bool_decide _); simpl.
  - apply Forall2_refl, same_but_count_refl.
  - apply bump_same_but_count.
Qed.

Lemma find_email_none e us :
  List.find (fun u => bool_decide (User.email u = e)) us = None ->
  e ∉ User.email <$> us.
Proof.
  induction us as [|u us IH]; simpl; [intros _; apply not_elem_of_nil|].
  case_bool_decide as Hu; [discriminate|].
  intros Hus%IH. apply not_elem_of_cons. split; [congruence|done].
Qed.

(** The store after one action: as before, or after a submission, or after
    a confirmed payment. *)
Lemma dispatch_store mail isEmail act a a' :
  dispatch specDb mail isEmail act a = Some a' ->
  app_store a' = app_store a
  \/ (exists ev clock data,
        app_store a' = submitted ev clock data (app_store a))
  \/ (exists ev i pid, app_store a' = confirmed ev i pid (app_store a)).
Proof.
  destruct act as [ev|i clock data|i o]; simpl.
  - intros [= <-]. by left.
  - destruct (view_of i a) as [[| |]|]; try discriminate.
    intros (inst & _ & ->)%run_handler_store.
    destruct (handleSubmit_store isEmail
                (onSubmit specDb mail (props_event inst) clock) data
                (mkWorld (app_store a) (state inst)
                         (app_outbox a) (app_console a)))
      as [->|(w0 & Hw0 & ->)]; [by left|].
    right; left. exists (props_event inst), clock, data.
    by rewrite onSubmit_store, Hw0.
  - destruct (view_of i a) as [[| |]|]; try discriminate.
    destruct o as [pid| |reason].
    + intros (inst & _ & ->)%run_handler_store.
      destruct (bookingData (state inst)) as [[u b]|] eqn:E.
      * right; right. exists (props_event inst), (Booking.id b), pid.
        by rewrite (handlePaymentSuccess_store mail (props_event inst) pid
                      (mkWorld (app_store a) (state inst)
                               (app_outbox a) (app_console a)) u b E).
      * left. by rewrite handlePaymentSuccess_idle.
    + intros (inst & _ & ->)%run_handler_store. by left.
    + intros (inst & _ & ->)%run_handler_store. by left.
Qed.

Lemma run_store (R : Database -> Database -> Prop) mail isEmail acts a a' :
  (forall d, R d d) ->
  (forall d1 d2 d3, R d1 d2 -> R d2 d3 -> R d1 d3) ->
  (forall ev clock data d, R d (submitted ev clock data d)) ->
  (forall ev i pid d, R d (confirmed ev i pid d)) ->
  run specDb mail isEmail acts a = Some a' ->
  R (app_store a) (app_store a').
Proof.
  intros Hrefl Htrans Hsub Hconf. revert a.
  induction acts as [|act acts IH]; simpl; intros a.
  - intros [= <-]. apply Hrefl.
  - destruct (dispatch specDb mail isEmail act a) as [a1|] eqn:E;
      [|discriminate].
    intros H%IH. eapply Htrans; [|exact H].
    destruct (dispatch_store _ _ _ _ _ E)
      as [->|[(ev & clock & data & ->)|(ev & i & pid & ->)]]; auto.
Qed.

(** X15. One user per e-mail, kept: if no two users of the store share an
    e-mail, then after any sequence of mounts, submissions and payment
    outcomes, on any number of forms, no two users share an e-mail. *)
Theorem run_keeps_emails_unique mail isEmail acts a a' :
  NoDup (User.email <$> users (app_store a)) ->
  run specDb mail isEmail acts a = Some a' ->
  NoDup (User.email <$> users (app_store a')).
Proof.
  intros Ha Hrun. revert Ha.
  apply (run_store
           (fun d d' => NoDup (User.email <$> users d) ->
                        NoDup (User.email <$> users d'))
           mail isEmail acts a a'); auto.
  - intros ev clock data d Hd. rewrite submitted_users. simpl.
    destruct (List.find _ (users d)) eqn:E; [done|].
    rewrite fmap_app. apply NoDup_app. split; [done|]. split.
    + intros e He [->|[]%elem_of_nil]%elem_of_cons.
      by apply (find_email_none _ _ E).
    + apply NoDup_singleton.
  - intros ev i pid d. by rewrite confirmed_users.
Qed.

Lemma run_keeps_emails_unique_witness :
  exists a',
    run specDb always isEmail_sample
      [Mount e0; Submit 0 (at_ 1000) ann; Mount e1;
       Submit 1 (at_ 2000) ann_again; Mount e0; Submit 2 (at_ 3000) bob]
      (mkApp store1 [] [] []) = Some a'
    /\ length (bookings (app_store a')) = 3%nat
    /\ NoDup (User.email <$> users (app_store a')).
Proof.
  eexists. split; [vm_compute; reflexivity|]. split; [reflexivity|].
  refine (run_keeps_emails_unique always isEmail_sample
            [Mount e0; Submit 0 (at_ 1000) ann; Mount e1;
             Submit 1 (at_ 2000) ann_again; Mount e0; Submit 2 (at_ 3000) bob]
            (mkApp store1 [] [] []) _ _ _).
  - apply NoDup_nil_2.
  - vm_compute. reflexivity.
Defined.

(** X16. The form never removes a user and never touches an event beyond
    its count: after any sequence of actions the users of before are the
    first users of the store, in the same order and unchanged, and the events
    are the same events, one for one, each differing from what it was in
    [currentParticipants] at most. *)
Theorem run_keeps_users_and_events mail isEmail acts a a' :
  run specDb mail isEmail acts a = Some a' ->
  users (app_store a) `prefix_of` users (app_store a')
  /\ Forall2 same_but_count (events (app_store a)) (events (app_store a')).
Proof.
  apply (run_store
           (fun d d' => users d `prefix_of` users d'
                        /\ Forall2 same_but_count (events d) (events d'))).
  - intros d. split; [done|]. apply Forall2_refl, same_but_count_refl.
  - intros d1 d2 d3 [H1 H2] [H3 H4]. split; [by etrans|].
    eapply Forall2_trans; eauto using same_but_count_trans.
  - intros ev clock data d. split; [|apply submitted_events].
    rewrite submitted_users. destruct (getUserByEmail _ _ _); [done|].
    by apply prefix_app_r.
  - intros ev i pid d. split; [by rewrite confirmed_users|].
    apply confirmed_events.
Qed.

Lemma run_keeps_users_and_events_witness :
  exists a',
    run specDb always isEmail_sample
      [Mount e0; Submit 0 (at_ 1000) ann; Mount e1; Submit 1 (at_ 2000) bob;
       Payment 1 (Success "pay_1")]
      (mkApp store1 [] [] []) = Some a'
    /\ Event.currentParticipants <$> events (app_store a') = [2; 4]
    /\ Forall2 same_but_count [e1; e0] (events (app_store a')).
Proof.
  eexists. split; [vm_compute; reflexivity|]. split; [reflexivity|].
  refine (proj2 (run_keeps_users_and_events always isEmail_sample
                   [Mount e0; Submit 0 (at_ 1000) ann; Mount e1;
                    Submit 1 (at_ 2000) bob; Payment 1 (Success "pay_1")]
                   (mkApp store1 [] [] []) _ _)).
  vm_compute. reflexivity.
Defined.

(** X17. A booking, once made, stays: after any sequence of actions each
    booking of before is at its place in the store with the identifier, user,
    event, date and amount it was created with, and a booking that was
    completed is completed still; new bookings come after the old ones. *)
Theorem run_keeps_bookings mail isEmail acts a a' :
  run specDb mail isEmail acts a = Some a' ->
  exists kept new,
    bookings (app_store a') = kept ++ new
    /\ Forall2 evolves (bookings (app_store a)) kept.
Proof.
  apply (run_store
           (fun d d' => exists kept new,
              bookings d' = kept ++ new
              /\ Forall2 evolves (bookings d) kept)).
  - intros d. exists (bookings d), []. rewrite app_nil_r.
    split; [done|]. apply Forall2_refl, evolves_refl.
  - intros d1 d2 d3 (k1 & n1 & E1 & H1) (k2 & n2 & E2 & H2).
    rewrite E1 in H2.
    apply Forall2_app_inv_l in H2 as (k21 & k22 & H21 & H22 & ->).
    exists k21, (k22 ++ n2). rewrite E2, <- app_assoc. split; [done|].
    eapply Forall2_trans; eauto using evolves_trans.
  - intros ev clock data d.
    exists (bookings d), [draftBooking ev clock (draftUser clock data)].
    rewrite submitted_bookings. split; [done|].
    apply Forall2_refl, evolves_refl.
  - intros ev i pid d. exists (bookings (confirmed ev i pid d)), [].
    rewrite app_nil_r. split; [done|]. apply confirmed_bookings.
Qed.

Lemma run_keeps_bookings_witness :
  exists a5 a6,
    run specDb always isEmail_sample
      [Mount e1; Mount e1; Submit 0 (at_ 1000) ann; Submit 1 (at_ 2000) bob;
       Payment 0 (Success "pay_1")]
      (mkApp store1 [] [] []) = Some a5
    /\ run specDb always isEmail_sample
         [Payment 1 (Success "pay_2"); Mount e0; Submit 2 (at_ 3000) ann]
         a5 = Some a6
    /\ exists kept new,
         bookings (app_store a6) = kept ++ new
         /\ Forall2 evolves (bookings (app_store a5)) kept.
Proof.
  do 2 eexists. split; [vm_compute; reflexivity|].
  split; [vm_compute; reflexivity|].
  eapply (run_keeps_bookings always isEmail_sample
            [Payment 1 (Success "pay_2"); Mount e0; Submit 2 (at_ 3000) ann]).
  vm_compute. reflexivity.
Defined.

Lemma success_kept_by_completeBooking db mail ev u b w :
  success (form w) = true ->
  success (form (exec (completeBooking db mail ev u b) w)) = true.
Proof.
  intros H. denote. repeat (case_match; simplify_eq/=; try done).
Qed.

Lemma success_kept_by_onSubmit db mail ev clock data w :
  success (form w) = true ->
  success (form (exec (onSubmit db mail ev clock data) w)) = true.
Proof.
  intros H. denote. repeat (case_match; simplify_eq/=; try done).
Qed.

Lemma success_kept_by_handlePaymentSuccess db mail ev pid w :
  success (form w) = true ->
  success (form (exec (handlePaymentSuccess db mail ev pid) w)) = true.
Proof.
  intros H. denote. repeat (case_match; simplify_eq/=; try done).
Qed.

Lemma success_kept_by_handleSubmit isEmail db mail ev clock data w :
  success (form w) = true ->
  success (form (exec (handleSubmit isEmail (onSubmit db mail ev clock) data)
                   w)) = true.
Proof.
  intros H. denote. repeat (case_match; simplify_eq/=; try done).
Qed.

(** X18. No handler takes the confirmation back, and none is stopped by
    it.  On a form whose [success] flag is set, whatever the store and the
    e-mail service do, the flag is still set after [onSubmit] (through
    [handleSubmit] or not), [completeBooking], [handlePaymentSuccess] and
    [onCancel], so that the confirmation card is still rendered; yet the
    handlers do not test the flag: a payment callback that arrives on a
    confirmed form with a booking writes to the store as on any other. *)
Theorem success_is_never_reset db mail isEmail ev clock data pid u b w :
  success (form w) = true ->
  render ev (form (exec (onSubmit db mail ev clock data) w)) = ConfirmedCard
  /\ render ev (form (exec (handleSubmit isEmail
                              (onSubmit db mail ev clock) data) w))
     = ConfirmedCard
  /\ render ev (form (exec (completeBooking db mail ev u b) w))
     = ConfirmedCard
  /\ render ev (form (exec (handlePaymentSuccess db mail ev pid) w))
     = ConfirmedCard
  /\ render ev (form (exec onCancel w)) = ConfirmedCard
  /\ (bookingData (form w) = Some (u, b) ->
      store (exec (handlePaymentSuccess specDb mail ev pid) w)
      = confirmed ev (Booking.id b) pid (store w)).
Proof.
  intros H. unfold render.
  rewrite success_kept_by_onSubmit, success_kept_by_handleSubmit,
    success_kept_by_completeBooking, success_kept_by_handlePaymentSuccess
    by done.
  do 4 (split; [done|]). split.
  - unfold onCancel, setShowPayment, modify_form, exec. simpl. by rewrite H.
  - apply handlePaymentSuccess_store.
Qed.

Lemma success_is_never_reset_witness :
  let w0 := mkWorld store1 initialForm [] [] in
  let w1 := exec (onSubmit specDb always e1 (at_ 1000) ann) w0 in
  let w2 := exec (handlePaymentSuccess specDb always e1 "pay_123") w1 in
  let w3 := exec (handlePaymentSuccess specDb always e1 "pay_456") w2 in
  success (form w2) = true
  /\ render e1 (form w3) = ConfirmedCard
  /\ Booking.paymentId <$> getBooking "1000" (store w3)
     = Some (Some "pay_456"%string).
Proof.
  split; [reflexivity|].
  destruct (success_is_never_reset specDb always isEmail_sample e1
              (at_ 2000) ann "pay_456"
              (draftUser (at_ 1000) ann)
              (draftBooking e1 (at_ 1000) (draftUser (at_ 1000) ann))
              (exec (handlePaymentSuccess specDb always e1 "pay_123")
                 (exec (onSubmit specDb always e1 (at_ 1000) ann)
                    (mkWorld store1 initialForm [] []))))
    as (_ & _ & _ & Hcard & _ & Hstore).
  - reflexivity.
  - split; [exact Hcard|].
    exact (f_equal (fun d => Booking.paymentId <$> getBooking "1000" d)
             (Hstore eq_refl)).
Defined.
